(** * logft ingestion: resolution, merge and audit

    A shallow embedding of [experiments/08_ingest_logft.py]: the candidate and
    override normalisers, the mode score, [choose_logft_for_row] and the
    merge-and-audit loop of [main], with the properties the specification
    states about them.

    Conventions of the embedding.
    - A Python [float] that is not NaN is a rational ([Q]); NaN is the absent
      value of an [option].  Rounding of [br * 100.0] and the rendering of a
      float as text are not modelled.
    - A [str] is a [string] of ASCII characters.
    - A pandas frame is a list of column labels and a list of rows; a
      normalised frame, whose columns the code then reads by name, is a list of
      records.
    - [DataFrame.sort_values] on several columns, and Python's [sorted], keep
      the order of rows that compare equal: they are the stable sort
      [sort_values] below.  On a single column pandas sorts with
      [kind="quicksort"] unless told otherwise, and states that only
      "mergesort" and "stable" keep that order: this sort is a parameter,
      [quicksort], of which only what pandas promises is assumed. *)

From Stdlib Require Import List String Ascii Bool Arith NArith ZArith QArith.
From Stdlib Require Import Lia Lqa Permutation Sorted.
Import ListNotations.

Set Implicit Arguments.

Open Scope string_scope.
Open Scope list_scope.

(** ** Python string primitives *)

Module PyStr.

Local Open Scope N_scope.

(** [str.isspace] on ASCII: TAB..CR, FS..US and the space. *)
Definition is_space (a : ascii) : bool :=
  let n := N_of_ascii a in
  ((9 <=? n) && (n <=? 13)) || ((28 <=? n) && (n <=? 32)).

Definition lower_char (a : ascii) : ascii :=
  let n := N_of_ascii a in
  if (65 <=? n) && (n <=? 90) then ascii_of_N (n + 32) else a.

(** [s.lower()] *)
Fixpoint lower (s : string) : string :=
  match s with
  | EmptyString => EmptyString
  | String a s' => String (lower_char a) (lower s')
  end.

Fixpoint lstrip (s : string) : string :=
  match s with
  | EmptyString => EmptyString
  | String a s' => if is_space a then lstrip s' else s
  end.

Fixpoint rstrip (s : string) : string :=
  match s with
  | EmptyString => EmptyString
  | String a s' =>
      match rstrip s' with
      | EmptyString => if is_space a then EmptyString else String a EmptyString
      | r => String a r
      end
  end.

(** [s.strip()] *)
Definition strip (s : string) : string := rstrip (lstrip s).

(** [sub in s] *)
Fixpoint contains (sub s : string) : bool :=
  String.prefix sub s ||
  match s with
  | EmptyString => false
  | String _ s' => contains sub s'
  end.

(** [not s] for a [str] *)
Definition is_empty (s : string) : bool :=
  match s with EmptyString => true | _ => false end.

End PyStr.

(** ** Floats: comparisons on [Q], and the value [-inf] used as a sort key *)

Definition Qltb (x y : Q) : bool := negb (Qle_bool y x).

Inductive ext : Type :=
| NegInf
| Fin (x : Q).

Definition ext_ltb (a b : ext) : bool :=
  match a, b with
  | _, NegInf => false
  | NegInf, Fin _ => true
  | Fin x, Fin y => Qltb x y
  end.

(** [Series.fillna(-np.inf)] on one value. *)
Definition fillna_neg_inf (v : option Q) : ext :=
  match v with
  | Some x => Fin x
  | None => NegInf
  end.

(** ** [sort_values]: a stable sort by a row comparison

    [leb r1 r2] says that [r1] need not come after [r2].  A row is inserted in
    front of the first row it need not come after, so rows that compare equal
    keep the order they had. *)

Section StableSort.

Variable A : Type.
Variable leb : A -> A -> bool.

Fixpoint insert_row (x : A) (l : list A) : list A :=
  match l with
  | [] => [x]
  | y :: l' => if leb x y then x :: l else y :: insert_row x l'
  end.

Fixpoint sort_values (l : list A) : list A :=
  match l with
  | [] => []
  | x :: l' => insert_row x (sort_values l')
  end.

End StableSort.

(** ** Records of the normalised frames *)

(** A row of the normalised candidate frame ([_normalize_candidates]). *)
Record Candidate : Type := {
  c_Z : Z;
  c_A : Z;
  c_logft : Q;
  c_mode : string;
  c_br_pct : option Q;      (* NaN is [None] *)
  c_source : string;
  c_file : string           (* the [__file__] column *)
}.

(** A row of the overrides frame ([_normalize_overrides]). *)
Record Override : Type := {
  o_Z : Z;
  o_A : Z;
  o_logft : Q;
  o_mode : string;
  o_source : string;
  o_note : string
}.

(** The provenance dict of [choose_logft_for_row].  [br_pct_used] is the empty
    text ([None]) or a percentage, which the code renders with ["%.6g"]. *)
Record Provenance : Type := {
  method : string;
  source : string;
  cand_mode : string;
  br_pct_used : option Q;
  note : string
}.

(** ** The resolution engine *)

Definition _mode_match_score (beta_mode cand_mode : string) : Z :=
  let b := PyStr.lower (PyStr.strip beta_mode) in
  let c := PyStr.lower (PyStr.strip cand_mode) in
  if PyStr.is_empty b then 0%Z
  else if PyStr.contains b c && negb (b =? "")%string then 2%Z
  else if (b =? "ec")%string && PyStr.contains "ec" c then 1%Z
  else if (b =? "beta+")%string
          && (PyStr.contains "beta+" c || PyStr.contains "ec" c) then 1%Z
  else if (b =? "beta-")%string && PyStr.contains "beta-" c then 1%Z
  else 0%Z.

(** [frame[(frame["Z"] == Z) & (frame["A"] == A)]] *)
Definition cand_at (Z A : Z) (c : Candidate) : bool :=
  ((c_Z c =? Z) && (c_A c =? A))%Z.

Definition over_at (Z A : Z) (o : Override) : bool :=
  ((o_Z o =? Z) && (o_A o =? A))%Z.

(** The [mode_score] column. *)
Definition mode_score (beta_mode : string) (c : Candidate) : Z :=
  _mode_match_score beta_mode (c_mode c).

(** [Series.max()] of a column of integers (of a frame that has a row). *)
Definition series_max (l : list Z) : Z :=
  match l with
  | [] => 0%Z
  | x :: l' => fold_left Z.max l' x
  end.

(** "Prefer best mode score": lines 288-296. *)
Definition prefer_best_mode (beta_mode : string) (cands : list Candidate)
  : list Candidate :=
  let best_score := series_max (map (mode_score beta_mode) cands) in
  if (best_score >? 0)%Z
  then filter (fun c => (mode_score beta_mode c =? best_score)%Z) cands
  else cands.

(** [cands["br_pct"].notna()] on one row. *)
Definition br_known (c : Candidate) : bool :=
  match c_br_pct c with Some _ => true | None => false end.

Definition _br_sort (c : Candidate) : ext := fillna_neg_inf (c_br_pct c).

(** Row comparison of [sort_values(["_br_sort", "logft"], ascending=[False, True])]. *)
Definition by_br_desc_logft_asc (c1 c2 : Candidate) : bool :=
  if ext_ltb (_br_sort c2) (_br_sort c1) then true
  else if ext_ltb (_br_sort c1) (_br_sort c2) then false
  else Qle_bool (c_logft c1) (c_logft c2).

(** The order of [sort_values(["logft"], ascending=[True])]: ascending logft. *)
Definition by_logft_asc (c1 c2 : Candidate) : bool :=
  Qle_bool (c_logft c1) (c_logft c2).

Definition missing_result : option Q * Provenance :=
  (None, {| method := "missing"; source := ""; cand_mode := "";
            br_pct_used := None; note := "" |}).

Section Resolution.

(** [cands.sort_values(["logft"], ascending=[True])]: one column, hence
    [kind="quicksort"].  It returns the rows in ascending order of logft; how
    it orders rows of equal logft is left open. *)
Variable quicksort : list Candidate -> list Candidate.

Definition choose_logft_for_row (Z A : Z) (beta_mode : string)
    (candidates : list Candidate) (overrides : list Override)
  : option Q * Provenance :=
  (* Overrides win *)
  match filter (over_at Z A) overrides with
  | r :: _ =>
      (Some (o_logft r),
       {| method := "override"; source := o_source r; cand_mode := o_mode r;
          br_pct_used := None; note := o_note r |})
  | [] =>
      match filter (cand_at Z A) candidates with
      | [] => missing_result
      | cands =>
          let cands := prefer_best_mode beta_mode cands in
          let has_br := existsb br_known cands in
          if has_br then
            match sort_values by_br_desc_logft_asc cands with
            | top :: _ =>
                (Some (c_logft top),
                 {| method := "candidate_highest_br"; source := c_source top;
                    cand_mode := c_mode top; br_pct_used := c_br_pct top;
                    note := "" |})
            | [] => missing_result   (* [iloc[0]] of an empty frame: not reached *)
            end
          else
            match quicksort cands with
            | top :: _ =>
                (Some (c_logft top),
                 {| method := "candidate_min_logft"; source := c_source top;
                    cand_mode := c_mode top; br_pct_used := None; note := "" |})
            | [] => missing_result   (* not reached *)
            end
      end
  end.

End Resolution.

(** ** Frames as pandas reads them *)

(** A cell of a frame returned by [pd.read_csv]: missing (NaN), or a value,
    given by the text [str()] shows for it and by the number
    [pd.to_numeric(errors="coerce")] reads from it ([None]: not a number). *)
Inductive cell : Type :=
| NaN
| Val (text : string) (num : option Q).

(** [astype(str)]: a missing cell becomes the text "nan". *)
Definition astype_str (v : cell) : string :=
  match v with
  | NaN => "nan"
  | Val t _ => t
  end.

Definition to_numeric (v : cell) : option Q :=
  match v with
  | NaN => None
  | Val _ n => n
  end.

(** A row maps column labels to cells; a label it does not list is NaN. *)
Definition Row : Type := list (string * cell).

Record DataFrame : Type := {
  columns : list string;
  rows : list Row
}.

Definition get (r : Row) (col : string) : cell :=
  match find (fun kv => (fst kv =? col)%string) r with
  | Some kv => snd kv
  | None => NaN
  end.

Definition has_column (df : DataFrame) (col : string) : bool :=
  existsb (String.eqb col) (columns df).

(** [df.empty] *)
Definition empty (df : DataFrame) : bool :=
  match columns df, rows df with
  | [], _ => true
  | _, [] => true
  | _, _ => false
  end.

(** [pd.DataFrame()] *)
Definition no_frame : DataFrame := {| columns := []; rows := [] |}.

(** [df[col] = v] for a scalar [v]. *)
Definition set_item (col : string) (v : cell) (df : DataFrame) : DataFrame :=
  {| columns := if has_column df col then columns df else columns df ++ [col];
     rows := map (fun r => (col, v)
                           :: filter (fun kv => negb (fst kv =? col)%string) r)
                 (rows df) |}.

(** Column labels of [pd.concat]: the union, in order of first appearance. *)
Definition union_labels (ls : list string) : list string :=
  fold_left (fun acc c => if existsb (String.eqb c) acc then acc else acc ++ [c])
            ls [].

(** [pd.concat(dfs, ignore_index=True)] *)
Definition concat (dfs : list DataFrame) : DataFrame :=
  {| columns := union_labels (flat_map columns dfs);
     rows := flat_map rows dfs |}.

(** [df.rename(columns=rename_map)], the map given as a function. *)
Definition rename (f : string -> string) (df : DataFrame) : DataFrame :=
  {| columns := map f (columns df);
     rows := map (map (fun kv => (f (fst kv), snd kv))) (rows df) |}.

(** A label carried by two columns: [df[col]] is then a frame, on which
    [pd.to_numeric] and [.str] raise. *)
Definition one_column (df : DataFrame) (col : string) : bool :=
  (count_occ string_dec (columns df) col <=? 1)%nat.

Definition is_integral (x : Q) : bool := (Qnum x mod Zpos (Qden x) =? 0)%Z.

(** [astype(int)] of a float: truncation. *)
Definition trunc (x : Q) : Z := Z.quot (Qnum x) (Zpos (Qden x)).

(** ** Exceptions *)

Inductive Error : Type :=
| RuntimeError (col : string)   (* a required column is absent *)
| KeyError (col : string)
| PandasError.                  (* TypeError or AttributeError inside pandas *)

Definition result (A : Type) : Type := (Error + A)%type.

Definition ret {A} (a : A) : result A := inr a.
Definition raise {A} (e : Error) : result A := inl e.
Definition bind {A B} (m : result A) (k : A -> result B) : result B :=
  match m with
  | inl e => inl e
  | inr a => k a
  end.

Notation "x <- m ;; k" := (bind m (fun x => k))
  (at level 61, m at next level, right associativity).
Notation "m ;;; k" := (bind m (fun _ => k))
  (at level 61, right associativity).

(** [if col not in df.columns: raise RuntimeError(...)], for each [col]. *)
Fixpoint require_columns (cols : list string) (df : DataFrame) : result unit :=
  match cols with
  | [] => ret tt
  | col :: cols' =>
      if has_column df col then require_columns cols' df
      else raise (RuntimeError col)
  end.

Definition guard (b : bool) (e : Error) : result unit :=
  if b then ret tt else raise e.

(** ** Reading the candidate sources *)

(** A file of the source directory: its path and the frame [pd.read_csv]
    returns for it. *)
Definition CsvFile : Type := (string * DataFrame)%type.

Definition by_path (f1 f2 : CsvFile) : bool := String.leb (fst f1) (fst f2).

(** [df = pd.read_csv(f); df["__file__"] = str(f)] *)
Definition read_tagged (f : CsvFile) : DataFrame :=
  set_item "__file__" (Val (fst f) None) (snd f).

(** [glob_files] are the matches of the glob, as the directory lists them. *)
Definition _read_csvs (glob_files : list CsvFile) : DataFrame :=
  let files := sort_values by_path glob_files in
  match files with
  | [] => no_frame
  | _ => concat (map read_tagged files)
  end.

(** ** The normalisers *)

(** [lc in (...)] *)
Definition among (s : string) (l : list string) : bool := existsb (String.eqb s) l.

(** The [rename_map] of [_normalize_candidates]. *)
Definition candidate_label (c : string) : string :=
  let lc := PyStr.lower (PyStr.strip c) in
  if (lc =? "z")%string then "Z"
  else if (lc =? "a")%string then "A"
  else if among lc ["logft"; "log_ft"; "log ft"] then "logft"
  else if among lc ["mode"; "decay_mode"; "decay"] then "mode"
  else if among lc ["br_pct"; "branch_pct"; "branching_pct"; "branching_ratio_pct"]
       then "br_pct"
  else if among lc ["br"; "branch"; "branching"; "branching_ratio"] then "br"
  else if (lc =? "source")%string then "source"
  else if (lc =? "comment")%string then "comment"
  else c.

(** The [rename_map] of [_normalize_overrides]. *)
Definition override_label (c : string) : string :=
  let lc := PyStr.lower (PyStr.strip c) in
  if (lc =? "z")%string then "Z"
  else if (lc =? "a")%string then "A"
  else if among lc ["logft"; "log_ft"; "log ft"] then "logft"
  else if among lc ["mode"; "decay_mode"; "decay"] then "mode"
  else if (lc =? "source")%string then "source"
  else if among lc ["note"; "notes"; "comment"] then "note"
  else c.

(** [pd.to_numeric(out[col], errors="coerce").astype("Int64")]: the cast
    raises on a number that is not an integer. *)
Definition numeric_int64 (col : string) (out : DataFrame) : result unit :=
  guard (one_column out col) PandasError ;;;
  guard (forallb (fun r => match to_numeric (get r col) with
                           | Some x => is_integral x
                           | None => true
                           end) (rows out)) PandasError.

(** The rows [dropna(subset=["Z", "A", "logft"])] keeps. *)
Definition complete (r : Row) : bool :=
  match to_numeric (get r "Z"), to_numeric (get r "A"), to_numeric (get r "logft") with
  | Some _, Some _, Some _ => true
  | _, _, _ => false
  end.

Definition number (v : option Q) : Q :=
  match v with Some x => x | None => 0 end.

(** Branching ratio normalization, lines 163-172, on one row. *)
Definition branching_pct (has_br_pct has_br : bool) (r : Row) : option Q :=
  let br_pct := if has_br_pct then to_numeric (get r "br_pct") else None in
  if has_br then
    match br_pct with
    | Some p => Some p
    | None =>
        match to_numeric (get r "br") with
        | Some br => Some (br * 100)%Q
        | None => None
        end
    end
  else br_pct.

(** Source normalization, lines 174-179, on one row. *)
Definition source_of (has_source : bool) (r : Row) : string :=
  let src := if has_source then PyStr.strip (astype_str (get r "source")) else "" in
  if (src =? "")%string then astype_str (get r "__file__") else src.

Definition candidate_of_row (out : DataFrame) (r : Row) : Candidate :=
  {| c_Z := trunc (number (to_numeric (get r "Z")));
     c_A := trunc (number (to_numeric (get r "A")));
     c_logft := number (to_numeric (get r "logft"));
     c_mode := if has_column out "mode"
               then PyStr.strip (astype_str (get r "mode")) else "";
     c_br_pct := branching_pct (has_column out "br_pct") (has_column out "br") r;
     c_source := source_of (has_column out "source") r;
     c_file := astype_str (get r "__file__") |}.

Definition _normalize_candidates (df : DataFrame) : result (list Candidate) :=
  if empty df then ret []
  else
    let out := rename candidate_label df in
    (* Must have Z,A,logft *)
    require_columns ["Z"; "A"; "logft"] out ;;;
    numeric_int64 "Z" out ;;;
    numeric_int64 "A" out ;;;
    guard (one_column out "logft") PandasError ;;;
    guard (one_column out "mode") PandasError ;;;
    guard (one_column out "br_pct") PandasError ;;;
    guard (one_column out "br") PandasError ;;;
    guard (one_column out "source") PandasError ;;;
    guard (has_column out "__file__") (KeyError "__file__") ;;;
    ret (map (candidate_of_row out) (filter complete (rows out))).

Definition override_source (path : string) (has_source : bool) (r : Row) : string :=
  let src := PyStr.strip (if has_source then astype_str (get r "source") else path) in
  if (src =? "")%string then path else src.

(** A row of the overrides frame.  ([get] reads the first cell under a label;
    under a label that two columns of the file were renamed to, [note] is the
    only one the code reads without raising.) *)
Definition override_of_row (path : string) (df : DataFrame) (r : Row) : Override :=
  {| o_Z := trunc (number (to_numeric (get r "Z")));
     o_A := trunc (number (to_numeric (get r "A")));
     o_logft := number (to_numeric (get r "logft"));
     o_mode := PyStr.strip (if has_column df "mode"
                            then astype_str (get r "mode") else "");
     o_source := override_source path (has_column df "source") r;
     o_note := if has_column df "note" then astype_str (get r "note") else "" |}.

(** [file] is what [pd.read_csv(path)] returns, [None] when the path does not
    exist. *)
Definition _normalize_overrides (path : string) (file : option DataFrame)
  : result (list Override) :=
  match file with
  | None => ret []
  | Some df0 =>
      let df := rename override_label df0 in
      require_columns ["Z"; "A"; "logft"] df ;;;
      guard (one_column df "Z") PandasError ;;;
      guard (one_column df "A") PandasError ;;;
      guard (one_column df "logft") PandasError ;;;
      guard (one_column df "mode") PandasError ;;;
      guard (one_column df "source") PandasError ;;;
      ret (map (override_of_row path df) (filter complete (rows df)))
  end.

(** ** The primary table, the audit and [main] *)

(** A row of the beta table.  [p_mode] is the text [str(row.get("mode", ""))]
    gives.  The [logft] cell is given by two fields.  [p_logft] is the number
    it holds, the one [float(cur)] returns; it is [None] when the cell holds
    none.  [p_logft_str] says that the cell is a [str]: [pd.read_csv] gives
    the column the dtype object as soon as one of its fields is text that is
    no number, white space for one; its empty fields are then NaN and the
    others [str].  So a cell is
    - NaN: [p_logft = None], [p_logft_str = false];
    - text made of white space only: [p_logft = None], [p_logft_str = true];
    - a number [x], as a float or as text: [p_logft = Some x].
    Text that is neither white space nor a number, on which [float(cur)] of
    line 381 raises [ValueError], is left out. *)
Record PrimaryRecord : Type := {
  p_Z : Z;
  p_A : Z;
  p_mode : string;
  p_tau_s : Q;
  p_Q_mev : Q;
  p_logft : option Q;
  p_logft_str : bool
}.

Record BetaTable : Type := {
  beta_columns : list string;
  beta_rows : list PrimaryRecord
}.

Record AuditRecord : Type := {
  a_Z : Z;
  a_A : Z;
  a_logft : option Q;
  a_method : string;
  a_source : string;
  a_beta_mode : string;
  a_cand_mode : string;
  a_br_pct_used : option Q;
  a_note : string
}.

(** The command line and the files it names. *)
Record Args : Type := {
  beta : option BetaTable;        (* [args.beta]; [None]: the file does not exist *)
  logft_dir : list CsvFile;       (* the [*.csv] files of [args.logft_dir] *)
  overrides : string;             (* [args.overrides] *)
  overrides_file : option DataFrame;
  force : bool;
  require_complete : bool
}.

Inductive Outcome : Type :=
| Return (code : Z)
| Raised (e : Error).

(** What a run leaves behind: how it ended and the files it wrote. *)
Record Run : Type := {
  outcome : Outcome;
  beta_written : option BetaTable;
  audit_written : option (list AuditRecord)
}.

(** The row with the float [v] as its logft cell, NaN when [v] is [None]. *)
Definition with_logft (v : option Q) (r : PrimaryRecord) : PrimaryRecord :=
  {| p_Z := p_Z r; p_A := p_A r; p_mode := p_mode r; p_tau_s := p_tau_s r;
     p_Q_mev := p_Q_mev r; p_logft := v; p_logft_str := false |}.

(** [beta.at[i, "logft"] = v] *)
Fixpoint set_logft_at (i : nat) (v : Q) (rows : list PrimaryRecord)
  : list PrimaryRecord :=
  match rows, i with
  | [], _ => []
  | r :: rows', O => with_logft (Some v) r :: rows'
  | r :: rows', S i' => r :: set_logft_at i' v rows'
  end.

(** The variables the loop of [main] updates. *)
Record LoopState : Type := {
  st_beta : list PrimaryRecord;
  audit_rows : list AuditRecord;
  updated : nat;
  skipped : nat;
  missing : nat
}.

Definition audit_record (row : PrimaryRecord) (beta_mode : string)
    (logft : option Q) (prov : Provenance) : AuditRecord :=
  {| a_Z := p_Z row; a_A := p_A row; a_logft := logft;
     a_method := method prov; a_source := source prov;
     a_beta_mode := beta_mode; a_cand_mode := cand_mode prov;
     a_br_pct_used := br_pct_used prov; a_note := note prov |}.

Definition kept_existing : Provenance :=
  {| method := "kept_existing"; source := ""; cand_mode := "";
     br_pct_used := None; note := "" |}.

(** [has_cur], line 375: the cell is not NaN and its text is not blank, that
    is, it holds a number. *)
Definition has_cur (cur : option Q) : bool :=
  match cur with Some _ => true | None => false end.

(** [isna()] of the logft cell: NaN only; white space is text, not NaN. *)
Definition isna (r : PrimaryRecord) : bool :=
  match p_logft r with
  | Some _ => false
  | None => negb (p_logft_str r)
  end.

Section Run.

Variable quicksort : list Candidate -> list Candidate.

(** One pass of [for i, row in beta.iterrows()], lines 369-417. *)
Definition loop_body (force : bool) (candidates : list Candidate)
    (overrides : list Override) (st : LoopState) (i : nat) (row : PrimaryRecord)
  : LoopState :=
  let Z := p_Z row in
  let A := p_A row in
  let beta_mode := PyStr.strip (p_mode row) in
  let cur := p_logft row in
  if has_cur cur && negb force then
    {| st_beta := st_beta st;
       audit_rows := audit_rows st ++ [audit_record row beta_mode cur kept_existing];
       updated := updated st; skipped := S (skipped st); missing := missing st |}
  else
    let '(logft, prov) :=
      choose_logft_for_row quicksort Z A beta_mode candidates overrides in
    match logft with
    | None =>
        {| st_beta := st_beta st;
           audit_rows := audit_rows st ++ [audit_record row beta_mode None prov];
           updated := updated st; skipped := skipped st; missing := S (missing st) |}
    | Some v =>
        {| st_beta := set_logft_at i v (st_beta st);
           audit_rows := audit_rows st ++ [audit_record row beta_mode (Some v) prov];
           updated := S (updated st); skipped := skipped st; missing := missing st |}
    end.

(** [beta.iterrows()]: the rows with their index labels 0, 1, ... *)
Fixpoint iterrows (start : nat) (rows : list PrimaryRecord)
  : list (nat * PrimaryRecord) :=
  match rows with
  | [] => []
  | r :: rows' => (start, r) :: iterrows (S start) rows'
  end.

Definition run_loop (force : bool) (candidates : list Candidate)
    (overrides : list Override) (rows : list PrimaryRecord) : LoopState :=
  fold_left (fun st ir => loop_body force candidates overrides st (fst ir) (snd ir))
            (iterrows 0 rows)
            {| st_beta := rows; audit_rows := []; updated := 0; skipped := 0;
               missing := 0 |}.

(** Row comparison of [audit.sort_values(["Z", "A"])]. *)
Definition by_Z_A (a1 a2 : AuditRecord) : bool :=
  ((a_Z a1 <? a_Z a2) || ((a_Z a1 =? a_Z a2) && (a_A a1 <=? a_A a2)))%Z.

(** [if "logft" not in beta.columns: beta["logft"] = np.nan] *)
Definition ensure_logft (t : BetaTable) : BetaTable :=
  if among "logft" (beta_columns t) then t
  else {| beta_columns := beta_columns t ++ ["logft"];
          beta_rows := map (with_logft None) (beta_rows t) |}.

Fixpoint missing_column (cols : list string) (t : BetaTable) : option string :=
  match cols with
  | [] => None
  | col :: cols' =>
      if among col (beta_columns t) then missing_column cols' t else Some col
  end.

(** [beta["logft"].isna().sum()] *)
Definition still_missing (rows : list PrimaryRecord) : nat :=
  List.length (filter isna rows).

(** [path.exists()] *)
Definition exists_file {A : Type} (file : option A) : bool :=
  match file with Some _ => true | None => false end.

Definition stop (o : Outcome) : Run :=
  {| outcome := o; beta_written := None; audit_written := None |}.

(** Lines 364-437 of [main]: the loop, the two writes and the exit code. *)
Definition merge_and_write (args : Args) (beta : BetaTable)
    (candidates : list Candidate) (overrides : list Override) : Run :=
  let st := run_loop (force args) candidates overrides (beta_rows beta) in
  (* Write outputs *)
  let table := {| beta_columns := beta_columns beta; beta_rows := st_beta st |} in
  match audit_rows st with
  | [] =>
      (* [pd.DataFrame([])] has no column "Z": [sort_values] raises, after the
         table was written *)
      {| outcome := Raised (KeyError "Z");
         beta_written := Some table; audit_written := None |}
  | _ =>
      let audit := sort_values by_Z_A (audit_rows st) in
      {| outcome := if require_complete args
                       && negb (still_missing (st_beta st) =? 0)%nat
                    then Return 3 else Return 0;
         beta_written := Some table;
         audit_written := Some audit |}
  end.

(** Lines 358-360: the candidate frame [main] works with. *)
Definition load_candidates (candidates_raw : DataFrame) : result (list Candidate) :=
  if negb (empty candidates_raw) then _normalize_candidates candidates_raw
  else ret [].

(** The columns [main] requires of the beta table. *)
Definition required_columns : list string := ["Z"; "A"; "mode"; "tau_s"; "Q_mev"].

Definition main (args : Args) : Run :=
  match beta args with
  | None => stop (Return 2)
  | Some beta0 =>
      match missing_column required_columns beta0 with
      | Some col => stop (Raised (RuntimeError col))
      | None =>
          let beta := ensure_logft beta0 in
          let candidates_raw := _read_csvs (logft_dir args) in
          if empty candidates_raw && negb (exists_file (overrides_file args))
          then stop (Return 2)
          else
            match load_candidates candidates_raw with
            | inl e => stop (Raised e)
            | inr candidates =>
                match _normalize_overrides (overrides args) (overrides_file args) with
                | inl e => stop (Raised e)
                | inr overrides => merge_and_write args beta candidates overrides
                end
            end
      end
  end.

End Run.

(** ** Notions used in the statements *)

(** Two rows carry the same branching percentage (both unknown, or equal). *)
Definition same_br (c w : Candidate) : Prop :=
  match c_br_pct c, c_br_pct w with
  | Some a, Some b => (a == b)%Q
  | None, None => True
  | _, _ => False
  end.

(** Two sorts on logft, both returning the rows in ascending order: the first
    keeps rows of equal logft in the order they had, the second reverses
    them. *)
Definition sort_keeping_ties : list Candidate -> list Candidate :=
  sort_values by_logft_asc.

Definition by_logft_strict (c1 c2 : Candidate) : bool :=
  Qltb (c_logft c1) (c_logft c2).

Definition sort_reversing_ties : list Candidate -> list Candidate :=
  sort_values by_logft_strict.

(** The candidates one source file contributes to the index [out]: its rows
    that survive [dropna], in row order. *)
Definition candidates_of_file (out : DataFrame) (f : CsvFile) : list Candidate :=
  map (candidate_of_row out)
      (filter complete (rows (rename candidate_label (read_tagged f)))).

(** The mode score as the specification words it, on the lower-cased texts:
    2 when the non-empty primary mode occurs in the candidate mode, else 1 for
    the compatibility pairs, else 0. *)
Definition spec_mode_score (primary_mode cand_mode : string) : Z :=
  let b := PyStr.lower primary_mode in
  let c := PyStr.lower cand_mode in
  if negb (PyStr.is_empty b) && PyStr.contains b c then 2%Z
  else if ((b =? "ec")%string && PyStr.contains "ec" c)
          || ((b =? "beta+")%string
              && (PyStr.contains "beta+" c || PyStr.contains "ec" c))
          || ((b =? "beta-")%string && PyStr.contains "beta-" c)
       then 1%Z
  else 0%Z.

(** The row the loop leaves in the table for [row], and the audit record it
    appends for it; [run_loop] is shown below to compute these row by row. *)
Definition merged_row (quicksort : list Candidate -> list Candidate)
    (force : bool) (candidates : list Candidate) (overrides : list Override)
    (row : PrimaryRecord) : PrimaryRecord :=
  if has_cur (p_logft row) && negb force then row
  else
    match fst (choose_logft_for_row quicksort (p_Z row) (p_A row)
                 (PyStr.strip (p_mode row)) candidates overrides) with
    | None => row
    | Some v => with_logft (Some v) row
    end.

Definition audit_of_row (quicksort : list Candidate -> list Candidate)
    (force : bool) (candidates : list Candidate) (overrides : list Override)
    (row : PrimaryRecord) : AuditRecord :=
  let beta_mode := PyStr.strip (p_mode row) in
  if has_cur (p_logft row) && negb force
  then audit_record row beta_mode (p_logft row) kept_existing
  else
    let res := choose_logft_for_row quicksort (p_Z row) (p_A row) beta_mode
                                    candidates overrides in
    audit_record row beta_mode (fst res) (snd res).

(** The order of the audit file: by Z, then by A. *)
Definition Z_A_le (a1 a2 : AuditRecord) : Prop :=
  (a_Z a1 < a_Z a2 \/ (a_Z a1 = a_Z a2 /\ a_A a1 <= a_A a2))%Z.

(** The same command line, with [t] as the beta table. *)
Definition with_beta (args : Args) (t : BetaTable) : Args :=
  {| beta := Some t; logft_dir := logft_dir args; overrides := overrides args;
     overrides_file := overrides_file args; force := force args;
     require_complete := require_complete args |}.

(** ** A small run, used to instantiate the statements *)

Definition num (t : string) (x : Q) : cell := Val t (Some x).

(** A source with a percentage column, blank in its second row, and a
    fraction column. *)
Definition ex_source_a : CsvFile :=
  ("data/raw/logft/a.csv",
   {| columns := ["z"; "A"; "LogFT"; "decay_mode"; "br_pct"; "br"];
      rows :=
        [ [("z", num "19" 19); ("A", num "44" 44); ("LogFT", num "5.3" 5.3);
           ("decay_mode", Val "beta-" None); ("br_pct", num "80" 80);
           ("br", num "0.8" 0.8)];
          [("z", num "19" 19); ("A", num "44" 44); ("LogFT", num "6.1" 6.1);
           ("decay_mode", Val "EC" None); ("br_pct", NaN);
           ("br", num "0.2" 0.2)] ] |}).

(** A source without a logft column. *)
Definition ex_source_b : CsvFile :=
  ("data/raw/logft/b.csv",
   {| columns := ["z"; "A"];
      rows := [ [("z", num "20" 20); ("A", num "45" 45)] ] |}).

Definition ex_row_20_45 : PrimaryRecord :=
  {| p_Z := 20; p_A := 45; p_mode := "nan"; p_tau_s := 1; p_Q_mev := 1;
     p_logft := None; p_logft_str := false |}.

Definition ex_row_19_44 : PrimaryRecord :=
  {| p_Z := 19; p_A := 44; p_mode := "beta-"; p_tau_s := 1; p_Q_mev := 1;
     p_logft := None; p_logft_str := false |}.

Definition ex_row_kept : PrimaryRecord :=
  {| p_Z := 19; p_A := 44; p_mode := "beta-"; p_tau_s := 1; p_Q_mev := 1;
     p_logft := Some 4.9; p_logft_str := false |}.

Definition ex_beta : BetaTable :=
  {| beta_columns := ["Z"; "A"; "mode"; "tau_s"; "Q_mev"];
     beta_rows := [ex_row_20_45; ex_row_19_44] |}.

Definition ex_args (complete : bool) : Args :=
  {| beta := Some ex_beta; logft_dir := [ex_source_b; ex_source_a];
     overrides := "data/aux/logft_overrides.csv"; overrides_file := None;
     force := false; require_complete := complete |}.

Definition ex_cand_80 : Candidate :=
  {| c_Z := 19; c_A := 44; c_logft := 5.3; c_mode := "beta-";
     c_br_pct := Some 80; c_source := "a.csv"; c_file := "a.csv" |}.

Definition ex_cand_20 : Candidate :=
  {| c_Z := 19; c_A := 44; c_logft := 6.1; c_mode := "EC";
     c_br_pct := Some 20; c_source := "a.csv"; c_file := "a.csv" |}.

Definition ex_override : Override :=
  {| o_Z := 19; o_A := 44; o_logft := 4.7; o_mode := ""; o_source := "curated";
     o_note := "" |}.

Definition ex_other_override : Override :=
  {| o_Z := 20; o_A := 45; o_logft := 3.1; o_mode := ""; o_source := "curated";
     o_note := "" |}.

(** The table the example run writes. *)
Definition ex_table_written : BetaTable :=
  {| beta_columns := ["Z"; "A"; "mode"; "tau_s"; "Q_mev"; "logft"];
     beta_rows := [ex_row_20_45; with_logft (Some 5.3) ex_row_19_44] |}.

(** The same run with b.csv as the only source. *)
Definition ex_args_no_logft : Args :=
  {| beta := Some ex_beta; logft_dir := [ex_source_b];
     overrides := "data/aux/logft_overrides.csv"; overrides_file := None;
     force := false; require_complete := false |}.

(** Two candidates that tie on every key. *)
Definition ex_tied (src : string) : Candidate :=
  {| c_Z := 19; c_A := 44; c_logft := 5.3; c_mode := "beta-";
     c_br_pct := None; c_source := src; c_file := src |}.

(** ** Further notions *)

(** The command line of a later run: the same files and flags, with [t] as
    the beta table and [f] as the force flag. *)
Definition rerun (args : Args) (t : BetaTable) (f : bool) : Args :=
  {| beta := Some t; logft_dir := logft_dir args; overrides := overrides args;
     overrides_file := overrides_file args; force := f;
     require_complete := require_complete args |}.

(** A cell of the audit or of the table is blank. *)
Definition blank (v : option Q) : bool :=
  match v with None => true | Some _ => false end.

(** A candidate with a low branching percentage and the matching mode. *)
Definition ex_cand_beta_5 : Candidate :=
  {| c_Z := 19; c_A := 44; c_logft := 7.2; c_mode := "beta-";
     c_br_pct := Some 5; c_source := "b.csv"; c_file := "b.csv" |}.

(** A candidate of another nuclide. *)
Definition ex_cand_other : Candidate :=
  {| c_Z := 20; c_A := 45; c_logft := 3.3; c_mode := "beta-";
     c_br_pct := Some 99; c_source := "a.csv"; c_file := "a.csv" |}.

(** A source file with a header and no row. *)
Definition ex_source_rowless : CsvFile :=
  ("data/raw/logft/c.csv", {| columns := ["Z"; "A"; "logft"]; rows := [] |}).

(** The example run with c.csv as the only source. *)
Definition ex_args_rowless : Args :=
  {| beta := Some ex_beta; logft_dir := [ex_source_rowless];
     overrides := "data/aux/logft_overrides.csv"; overrides_file := None;
     force := false; require_complete := false |}.

(** A beta table without rows, and the example run on it. *)
Definition ex_beta_empty : BetaTable :=
  {| beta_columns := ["Z"; "A"; "mode"; "tau_s"; "Q_mev"]; beta_rows := [] |}.

Definition ex_args_empty_table : Args :=
  {| beta := Some ex_beta_empty; logft_dir := [ex_source_a];
     overrides := "data/aux/logft_overrides.csv"; overrides_file := None;
     force := false; require_complete := false |}.

(** The example run, forced. *)
Definition ex_args_forced : Args :=
  {| beta := Some ex_beta; logft_dir := [ex_source_b; ex_source_a];
     overrides := "data/aux/logft_overrides.csv"; overrides_file := None;
     force := true; require_complete := false |}.

(** A candidate frame whose Z is not an integer. *)
Definition ex_frame_fractional : DataFrame :=
  {| columns := ["Z"; "A"; "logft"];
     rows := [ [("Z", num "19.5" 19.5); ("A", num "44" 44);
                ("logft", num "5.3" 5.3)] ] |}.

(** A candidate frame, as concatenated from a file with the header "Z" and
    one with the header "z". *)
Definition ex_frame_colliding : DataFrame :=
  {| columns := ["Z"; "A"; "logft"; "z"];
     rows := [ [("Z", num "19" 19); ("A", num "44" 44); ("logft", num "5.3" 5.3);
                ("z", NaN)];
               [("Z", NaN); ("A", num "45" 45); ("logft", num "6.0" 6);
                ("z", num "20" 20)] ] |}.

(** An overrides file. *)
Definition ex_overrides_frame : DataFrame :=
  {| columns := ["Z"; "A"; "log_ft"; "source"];
     rows := [ [("Z", num "19" 19); ("A", num "44" 44); ("log_ft", num "4.7" 4.7);
                ("source", Val "curated" None)] ] |}.

(** A beta table whose logft column holds a field of white space, in the
    row (20, 45), and an empty field; and the run on it with the source a.csv
    and require_complete. *)
Definition ex_row_blank_text : PrimaryRecord :=
  {| p_Z := 20; p_A := 45; p_mode := "beta-"; p_tau_s := 1; p_Q_mev := 1;
     p_logft := None; p_logft_str := true |}.

Definition ex_beta_blank_text : BetaTable :=
  {| beta_columns := ["Z"; "A"; "mode"; "tau_s"; "Q_mev"; "logft"];
     beta_rows := [ex_row_blank_text; ex_row_19_44] |}.

Definition ex_args_blank_text : Args :=
  {| beta := Some ex_beta_blank_text; logft_dir := [ex_source_a];
     overrides := "data/aux/logft_overrides.csv"; overrides_file := None;
     force := false; require_complete := true |}.

(** ** Proof steps used repeatedly *)

(** Boolean comparisons of rationals in the context, as propositions. *)
Ltac q_facts :=
  repeat match goal with
  | H : Qle_bool _ _ = true |- _ => apply Qle_bool_iff in H
  | H : Qle_bool ?x ?y = false |- _ =>
      let Hc := fresh "Hc" in
      assert (y < x)%Q
        by (apply Qnot_le_lt; intro Hc; apply Qle_bool_iff in Hc; congruence);
      clear H
  end.

(** Case analysis on the comparisons of a two-key order. *)
Ltac q_cases :=
  repeat match goal with
  | |- context [negb (Qle_bool ?x ?y)] =>
      destruct (Qle_bool x y) eqn:?; simpl in *
  | H : context [negb (Qle_bool ?x ?y)] |- _ =>
      destruct (Qle_bool x y) eqn:?; simpl in *
  end;
  try discriminate; try reflexivity; q_facts; try lra.

(** A sequence of checks that ended well: each check passed. *)
Ltac run_checks H :=
  repeat match type of H with
  | bind ?m _ = inr _ =>
      let E := fresh "E" in
      destruct m eqn:E; cbn [bind] in H; [discriminate|]
  end.

(** * Properties *)

(** ** The stable sort *)

(** Insertion by any comparison that decides an order one way or the other
    yields a sorted list. *)
Lemma sort_values_sorted_for (A : Type) (cmp : A -> A -> bool)
    (R : A -> A -> Prop) :
  (forall x y, cmp x y = true -> R x y) ->
  (forall x y, cmp x y = false -> R y x) ->
  forall l, Sorted R (sort_values cmp l).
Proof.
  intros Ht Hf.
  assert (Hins : forall x l, Sorted R l -> Sorted R (insert_row cmp x l)).
  { intros x l Hl. induction Hl as [|y l Hs IH Hd]; simpl.
    - repeat constructor.
    - destruct (cmp x y) eqn:E.
      + constructor; [constructor; assumption | constructor; auto].
      + constructor; [exact IH|].
        destruct l as [|z l]; simpl.
        * constructor. auto.
        * destruct (cmp x z); constructor; [auto | inversion Hd; assumption]. }
  induction l as [|x l IH]; simpl; [constructor | apply Hins, IH].
Qed.

Section StableSortFacts.

Variable A : Type.
Variable leb : A -> A -> bool.

Lemma insert_row_perm (x : A) (l : list A) :
  Permutation (insert_row leb x l) (x :: l).
Proof.
  induction l as [|y l IH]; simpl.
  - apply Permutation_refl.
  - destruct (leb x y).
    + apply Permutation_refl.
    + apply Permutation_trans with (y :: x :: l).
      * apply perm_skip, IH.
      * apply perm_swap.
Qed.

Lemma sort_values_perm (l : list A) : Permutation (sort_values leb l) l.
Proof.
  induction l as [|x l IH]; simpl.
  - apply perm_nil.
  - apply Permutation_trans with (x :: sort_values leb l).
    + apply insert_row_perm.
    + apply perm_skip, IH.
Qed.

Lemma sort_values_nil (l : list A) : sort_values leb l = [] -> l = [].
Proof.
  intros H. apply Permutation_nil.
  rewrite <- H. apply sort_values_perm.
Qed.

Lemma sort_values_in (l : list A) (x : A) :
  In x (sort_values leb l) <-> In x l.
Proof.
  split; apply Permutation_in;
    [apply sort_values_perm | apply Permutation_sym, sort_values_perm].
Qed.

Hypothesis leb_total : forall x y, leb x y = true \/ leb y x = true.

Lemma sort_values_sorted (l : list A) :
  Sorted (fun a b => leb a b = true) (sort_values leb l).
Proof.
  apply sort_values_sorted_for; [auto|].
  intros x y H. destruct (leb_total x y) as [H'|H']; congruence.
Qed.

Hypothesis leb_trans :
  forall x y z, leb x y = true -> leb y z = true -> leb x z = true.

(** The first row of the sorted frame, located in the unsorted one: every
    row before it compares strictly after it, and it need not come after any
    row behind it. *)
Lemma sort_values_first (l : list A) (w : A) (rest : list A) :
  sort_values leb l = w :: rest ->
  exists l1 l2,
    l = l1 ++ w :: l2 /\
    (forall c, In c l1 -> leb c w = false) /\
    (forall c, In c l2 -> leb w c = true).
Proof.
  revert w rest.
  induction l as [|x l IH]; simpl; intros w rest H; [discriminate|].
  destruct (sort_values leb l) as [|w' rest'] eqn:E.
  - apply sort_values_nil in E. subst l. simpl in H.
    injection H as <- _. exists [], []. repeat split; intros c [].
  - destruct (IH w' rest' eq_refl) as (l1 & l2 & Hl & Hb & Ha).
    simpl in H. destruct (leb x w') eqn:Ex.
    + injection H as <- _. exists [], l. split; [reflexivity|].
      split; [intros c []|].
      intros c Hc. subst l. apply in_app_or in Hc.
      destruct Hc as [Hc|[<-|Hc]].
      * apply leb_trans with w'; [exact Ex|].
        destruct (leb_total w' c) as [H|H]; [exact H|].
        rewrite (Hb c Hc) in H. discriminate.
      * exact Ex.
      * apply leb_trans with w'; [exact Ex | apply Ha, Hc].
    + injection H as <- _. exists (x :: l1), l2. subst l.
      split; [reflexivity|]. split; [|exact Ha].
      intros c [<-|Hc]; [exact Ex | apply Hb, Hc].
Qed.

Lemma sort_values_least (l : list A) (w : A) (rest : list A) :
  sort_values leb l = w :: rest ->
  In w l /\ forall c, In c l -> leb w c = true.
Proof.
  intros H. destruct (sort_values_first l H) as (l1 & l2 & -> & Hb & Ha).
  split; [apply in_elt|].
  intros c Hc. apply in_app_or in Hc. destruct Hc as [Hc|[<-|Hc]].
  - destruct (leb_total w c) as [H'|H']; [exact H'|].
    rewrite (Hb c Hc) in H'. discriminate.
  - destruct (leb_total w w); assumption.
  - apply Ha, Hc.
Qed.


End StableSortFacts.

(** ** The row comparisons are total preorders *)

Lemma by_logft_asc_total (x y : Candidate) :
  by_logft_asc x y = true \/ by_logft_asc y x = true.
Proof.
  unfold by_logft_asc.
  destruct (Qle_bool (c_logft x) (c_logft y)) eqn:E; [left; reflexivity|].
  right. q_facts. apply Qle_bool_iff. lra.
Qed.


Lemma by_br_desc_logft_asc_total (x y : Candidate) :
  by_br_desc_logft_asc x y = true \/ by_br_desc_logft_asc y x = true.
Proof.
  unfold by_br_desc_logft_asc, _br_sort, fillna_neg_inf.
  destruct (c_br_pct x) as [p|], (c_br_pct y) as [q|]; simpl; unfold Qltb;
    try (left; reflexivity); try (right; reflexivity).
  - destruct (Qle_bool p q) eqn:E1, (Qle_bool q p) eqn:E2; simpl; auto.
    destruct (Qle_bool (c_logft x) (c_logft y)) eqn:E3; [left; reflexivity|].
    right. q_facts. apply Qle_bool_iff. lra.
  - destruct (Qle_bool (c_logft x) (c_logft y)) eqn:E3; [left; reflexivity|].
    right. q_facts. apply Qle_bool_iff. lra.
Qed.

Lemma by_br_desc_logft_asc_trans (x y z : Candidate) :
  by_br_desc_logft_asc x y = true -> by_br_desc_logft_asc y z = true ->
  by_br_desc_logft_asc x z = true.
Proof.
  unfold by_br_desc_logft_asc, _br_sort, fillna_neg_inf.
  destruct (c_br_pct x) as [p|], (c_br_pct y) as [q|], (c_br_pct z) as [r|];
    simpl; unfold Qltb; intros H1 H2; try discriminate; try reflexivity;
    q_cases; apply Qle_bool_iff; lra.
Qed.

(** What the two-key comparison says about the rows it orders. *)
Lemma by_br_desc_logft_asc_spec (w c : Candidate) (q : Q) :
  by_br_desc_logft_asc w c = true -> c_br_pct c = Some q ->
  exists p, c_br_pct w = Some p /\
            ((q < p)%Q \/ (q == p /\ c_logft w <= c_logft c)%Q).
Proof.
  unfold by_br_desc_logft_asc, _br_sort, fillna_neg_inf. intros H Hq.
  rewrite Hq in H. destruct (c_br_pct w) as [p|]; simpl in H; [|discriminate].
  exists p. split; [reflexivity|]. unfold Qltb in H.
  destruct (Qle_bool p q) eqn:E1; simpl in H.
  - destruct (Qle_bool q p) eqn:E2; simpl in H; [|discriminate].
    right. q_facts. split; lra.
  - left. q_facts. assumption.
Qed.

Lemma by_Z_A_total (x y : AuditRecord) : by_Z_A x y = true \/ by_Z_A y x = true.
Proof. unfold by_Z_A. lia. Qed.

Lemma by_Z_A_trans (x y z : AuditRecord) :
  by_Z_A x y = true -> by_Z_A y z = true -> by_Z_A x z = true.
Proof. unfold by_Z_A. lia. Qed.

Lemma by_path_total (f g : CsvFile) : by_path f g = true \/ by_path g f = true.
Proof. apply String.leb_total. Qed.

(** ** Mode score and the preference for the best score *)

Lemma mode_match_score_range (b c : string) :
  (0 <= _mode_match_score b c <= 2)%Z.
Proof.
  unfold _mode_match_score.
  repeat match goal with |- context [if ?t then _ else _] => destruct t end; lia.
Qed.

Lemma fold_max_ge (l : list Z) (a : Z) :
  (a <= fold_left Z.max l a)%Z /\
  forall x, In x l -> (x <= fold_left Z.max l a)%Z.
Proof.
  revert a. induction l as [|y l IH]; simpl; intros a.
  - split; [lia | intros x []].
  - destruct (IH (Z.max a y)) as [H1 H2]. split; [lia|].
    intros x [<-|Hx]; [lia | apply H2, Hx].
Qed.

Lemma fold_max_in (l : list Z) (a : Z) :
  fold_left Z.max l a = a \/ In (fold_left Z.max l a) l.
Proof.
  revert a. induction l as [|y l IH]; simpl; intros a; [left; reflexivity|].
  destruct (IH (Z.max a y)) as [H|H]; [|right; right; exact H].
  rewrite H. destruct (Z.max_spec a y) as [[_ ->]|[_ ->]]; auto.
Qed.

Lemma series_max_ge (l : list Z) (x : Z) : In x l -> (x <= series_max l)%Z.
Proof.
  destruct l as [|a l]; simpl; [intros []|].
  destruct (fold_max_ge l a) as [H1 H2].
  intros [<-|Hx]; [exact H1 | apply H2, Hx].
Qed.

Lemma series_max_in (l : list Z) : l <> [] -> In (series_max l) l.
Proof.
  destruct l as [|a l]; [congruence|]. intros _. simpl.
  destruct (fold_max_in l a) as [->|H]; auto.
Qed.

Lemma filter_all (A : Type) (p : A -> bool) (l : list A) :
  (forall x, In x l -> p x = true) -> filter p l = l.
Proof.
  induction l as [|x l IH]; simpl; intros H; [reflexivity|].
  rewrite (H x (or_introl eq_refl)). f_equal. apply IH. auto.
Qed.

(** The best score is reached, and no score is negative: preferring the best
    score is always the filter on it. *)
Lemma prefer_best_mode_filter (beta_mode : string) (cands : list Candidate) :
  prefer_best_mode beta_mode cands =
  filter (fun c => (mode_score beta_mode c
                    =? series_max (map (mode_score beta_mode) cands))%Z) cands.
Proof.
  unfold prefer_best_mode.
  destruct (series_max (map (mode_score beta_mode) cands) >? 0)%Z eqn:E;
    [reflexivity|].
  symmetry. apply filter_all. intros c Hc. apply Z.eqb_eq.
  assert (Hle := series_max_ge _ _ (in_map (mode_score beta_mode) _ _ Hc)).
  assert (H0 := mode_match_score_range beta_mode (c_mode c)).
  unfold mode_score in *. lia.
Qed.

Lemma prefer_best_mode_in (beta_mode : string) (cands : list Candidate)
    (c : Candidate) :
  In c (prefer_best_mode beta_mode cands) <->
  In c cands /\
  mode_score beta_mode c = series_max (map (mode_score beta_mode) cands).
Proof.
  rewrite prefer_best_mode_filter, filter_In, Z.eqb_eq. reflexivity.
Qed.

Lemma prefer_best_mode_nonempty (beta_mode : string) (cands : list Candidate) :
  cands <> [] -> prefer_best_mode beta_mode cands <> [].
Proof.
  intros Hne Hnil.
  assert (Hin : In (series_max (map (mode_score beta_mode) cands))
                   (map (mode_score beta_mode) cands)).
  { apply series_max_in. destruct cands; [congruence | discriminate]. }
  apply in_map_iff in Hin. destruct Hin as (c & Hc & Hin).
  assert (H : In c (prefer_best_mode beta_mode cands))
    by (apply prefer_best_mode_in; auto).
  rewrite Hnil in H. exact H.
Qed.

(** ** Resolution *)

Section Properties.

Variable quicksort : list Candidate -> list Candidate.

(** What pandas promises of the sort on logft: the same rows, in ascending
    order. *)
Hypothesis quicksort_perm : forall l, Permutation (quicksort l) l.
Hypothesis quicksort_sorted :
  forall l, Sorted (fun a b => by_logft_asc a b = true) (quicksort l).

Lemma filter_none (A : Type) (p : A -> bool) (l : list A) :
  (forall x, In x l -> p x = false) -> filter p l = [].
Proof.
  induction l as [|x l IH]; simpl; intros H; [reflexivity|].
  rewrite (H x (or_introl eq_refl)). apply IH. auto.
Qed.

(** C1.  When an override matches (Z, A), resolution returns the first
    matching override in load order, with method "override", whatever the
    candidates are: the result is the same for every candidate frame. *)
Theorem override_precedence (Z A : Z) (beta_mode : string)
    (candidates : list Candidate) (before : list Override) (r : Override)
    (after : list Override) :
  (forall o, In o before -> over_at Z A o = false) ->
  over_at Z A r = true ->
  choose_logft_for_row quicksort Z A beta_mode candidates (before ++ r :: after) =
  (Some (o_logft r),
   {| method := "override"; source := o_source r; cand_mode := o_mode r;
      br_pct_used := None; note := o_note r |}).
Proof.
  intros Hbefore Hr. unfold choose_logft_for_row.
  rewrite filter_app, (filter_none _ _ Hbefore). simpl. rewrite Hr. reflexivity.
Qed.

(** Without a matching override, when a retained candidate has a known
    branching percentage, resolution returns the first row of the two-column
    sort. *)
Lemma choose_highest_br (Z A : Z) (beta_mode : string)
    (candidates : list Candidate) (overrides : list Override) :
  filter (over_at Z A) overrides = [] ->
  let kept := prefer_best_mode beta_mode (filter (cand_at Z A) candidates) in
  existsb br_known kept = true ->
  exists w rest,
    sort_values by_br_desc_logft_asc kept = w :: rest /\
    choose_logft_for_row quicksort Z A beta_mode candidates overrides =
    (Some (c_logft w),
     {| method := "candidate_highest_br"; source := c_source w;
        cand_mode := c_mode w; br_pct_used := c_br_pct w; note := "" |}).
Proof.
  intros Hov kept Hb. unfold choose_logft_for_row. rewrite Hov.
  destruct (filter (cand_at Z A) candidates) as [|c0 cs] eqn:Ef;
    [discriminate Hb|].
  fold kept. rewrite Hb.
  destruct (sort_values by_br_desc_logft_asc kept) as [|w rest] eqn:Es.
  - apply sort_values_nil in Es. rewrite Es in Hb. discriminate.
  - exists w, rest. split; reflexivity.
Qed.

(** Without a matching override, when candidates match and none retained has
    a known branching percentage, resolution returns the first row of the
    sort on logft. *)
Lemma choose_min_logft (Z A : Z) (beta_mode : string)
    (candidates : list Candidate) (overrides : list Override) :
  filter (over_at Z A) overrides = [] ->
  filter (cand_at Z A) candidates <> [] ->
  let kept := prefer_best_mode beta_mode (filter (cand_at Z A) candidates) in
  existsb br_known kept = false ->
  exists w rest,
    quicksort kept = w :: rest /\
    choose_logft_for_row quicksort Z A beta_mode candidates overrides =
    (Some (c_logft w),
     {| method := "candidate_min_logft"; source := c_source w;
        cand_mode := c_mode w; br_pct_used := None; note := "" |}).
Proof.
  intros Hov Hc kept Hb. unfold choose_logft_for_row. rewrite Hov.
  assert (Hkept : kept <> []) by (apply prefer_best_mode_nonempty, Hc).
  destruct (filter (cand_at Z A) candidates) as [|c0 cs] eqn:Ef; [congruence|].
  fold kept. rewrite Hb.
  destruct (quicksort kept) as [|w rest] eqn:Es.
  - assert (Hp := quicksort_perm kept). rewrite Es in Hp.
    apply Permutation_nil in Hp. congruence.
  - exists w, rest. split; reflexivity.
Qed.


(** ** The order of the candidate index *)

Lemma filter_split (A : Type) (p : A -> bool) (l l1 : list A) (w : A)
    (l2 : list A) :
  filter p l = l1 ++ w :: l2 ->
  exists before after,
    l = before ++ w :: after /\ filter p before = l1 /\ p w = true.
Proof.
  revert l1. induction l as [|x l IH]; simpl; intros l1 H.
  - destruct l1; discriminate.
  - destruct (p x) eqn:Ex.
    + destruct l1 as [|y l1]; simpl in H.
      * injection H as -> _. exists [], l. auto.
      * injection H as -> H. destruct (IH l1 H) as (b & a & -> & Hb & Hw).
        exists (y :: b), a. simpl. rewrite Ex, Hb. auto.
    + destruct (IH l1 H) as (b & a & -> & Hb & Hw).
      exists (x :: b), a. simpl. rewrite Ex. auto.
Qed.

Lemma filter_filter (A : Type) (p q : A -> bool) (l : list A) :
  filter q (filter p l) = filter (fun x => p x && q x) l.
Proof.
  induction l as [|x l IH]; simpl; [reflexivity|].
  destruct (p x); simpl; [destruct (q x)|]; rewrite IH; reflexivity.
Qed.

Lemma map_flat_map (A B C : Type) (f : A -> list B) (g : B -> C) (l : list A) :
  map g (flat_map f l) = flat_map (fun x => map g (f x)) l.
Proof.
  induction l as [|x l IH]; simpl; [reflexivity|].
  rewrite map_app, IH. reflexivity.
Qed.

Lemma filter_flat_map (A B : Type) (f : A -> list B) (p : B -> bool)
    (l : list A) :
  filter p (flat_map f l) = flat_map (fun x => filter p (f x)) l.
Proof.
  induction l as [|x l IH]; simpl; [reflexivity|].
  rewrite filter_app, IH. reflexivity.
Qed.

Lemma read_csvs_rows (glob_files : list CsvFile) :
  rows (_read_csvs glob_files) =
  flat_map (fun f => rows (read_tagged f)) (sort_values by_path glob_files).
Proof.
  unfold _read_csvs.
  destruct (sort_values by_path glob_files) as [|f fs]; [reflexivity|].
  unfold concat. cbn [rows]. rewrite flat_map_concat_map, map_map.
  rewrite <- flat_map_concat_map. reflexivity.
Qed.

Lemma normalize_candidates_rows (df : DataFrame) (cands : list Candidate) :
  empty df = false ->
  _normalize_candidates df = inr cands ->
  cands = map (candidate_of_row (rename candidate_label df))
              (filter complete (rows (rename candidate_label df))).
Proof.
  intros He H. unfold _normalize_candidates in H. rewrite He in H.
  run_checks H. injection H as <-. reflexivity.
Qed.

Lemma by_br_desc_logft_asc_tie (c w : Candidate) :
  same_br c w -> (c_logft c == c_logft w)%Q -> by_br_desc_logft_asc c w = true.
Proof.
  unfold same_br, by_br_desc_logft_asc, _br_sort, fillna_neg_inf.
  destruct (c_br_pct c) as [a|], (c_br_pct w) as [b|]; simpl;
    intros Hbr Hl; try contradiction; unfold Qltb; q_cases;
    apply Qle_bool_iff; lra.
Qed.

(** On the two-column sort: the winner found in the index, with no tied
    candidate in front of it. *)
Lemma earliest_in_index (Z A : Z) (beta_mode : string)
    (candidates : list Candidate) (overrides : list Override) :
  filter (over_at Z A) overrides = [] ->
  existsb br_known
    (prefer_best_mode beta_mode (filter (cand_at Z A) candidates)) = true ->
  let res := choose_logft_for_row quicksort Z A beta_mode candidates overrides in
  exists before w after,
    candidates = before ++ w :: after /\
    cand_at Z A w = true /\
    fst res = Some (c_logft w) /\
    source (snd res) = c_source w /\
    cand_mode (snd res) = c_mode w /\
    forall c,
      In c before ->
      cand_at Z A c = true ->
      mode_score beta_mode c = mode_score beta_mode w ->
      same_br c w ->
      (c_logft c == c_logft w)%Q ->
      False.
Proof.
  intros Hov Hbr res.
  assert (Hc : filter (cand_at Z A) candidates <> []).
  { intros E. rewrite E in Hbr. discriminate. }
  pose (best := series_max (map (mode_score beta_mode)
                                (filter (cand_at Z A) candidates))).
  pose (P := fun c => cand_at Z A c && (mode_score beta_mode c =? best)%Z).
  assert (Hkept : prefer_best_mode beta_mode (filter (cand_at Z A) candidates)
                  = filter P candidates).
  { rewrite prefer_best_mode_filter, filter_filter. reflexivity. }
  destruct (choose_highest_br Z A beta_mode candidates overrides Hov Hbr)
    as (w & rest & Hs & Hres).
  fold res in Hres. rewrite Hkept in Hs.
  destruct (sort_values_first by_br_desc_logft_asc by_br_desc_logft_asc_total
              by_br_desc_logft_asc_trans _ Hs) as (l1 & l2 & Hl & Hfront & _).
  destruct (@filter_split _ P candidates l1 w l2 Hl)
    as (before & after & Hcs & Hfb & Hw).
  unfold P in Hw. apply andb_prop in Hw. destruct Hw as [Hw1 Hw2].
  apply Z.eqb_eq in Hw2.
  exists before, w, after. rewrite Hres. simpl. repeat split; try assumption.
  intros c Hin Hat Hsc Hsame Hl'.
  assert (Hc1 : In c l1).
  { rewrite <- Hfb. apply filter_In. split; [exact Hin|].
    unfold P. rewrite Hat, Hsc, Hw2, Z.eqb_refl. reflexivity. }
  specialize (Hfront c Hc1).
  rewrite (by_br_desc_logft_asc_tie c w Hsame Hl') in Hfront. discriminate.
Qed.

(** The candidate index lists, file after file in the lexicographic order of
    the paths, the surviving rows of each file in row order. *)
Lemma index_in_path_order (glob_files : list CsvFile) (cands : list Candidate) :
  empty (_read_csvs glob_files) = false ->
  _normalize_candidates (_read_csvs glob_files) = inr cands ->
  exists files,
    Permutation files glob_files /\
    Sorted (fun f g => String.leb (fst f) (fst g) = true) files /\
    cands = flat_map
              (candidates_of_file (rename candidate_label (_read_csvs glob_files)))
              files.
Proof.
  intros He H. exists (sort_values by_path glob_files).
  split; [apply sort_values_perm|].
  split; [apply (sort_values_sorted by_path by_path_total)|].
  rewrite (normalize_candidates_rows _ He H).
  unfold candidates_of_file, rename at 2. cbn [rows].
  rewrite read_csvs_rows, map_flat_map, filter_flat_map, map_flat_map.
  reflexivity.
Qed.

(** ** The mode score against its wording *)

Lemma mode_match_score_trimmed (beta_mode cand_mode : string) :
  _mode_match_score beta_mode cand_mode =
  spec_mode_score (PyStr.strip beta_mode) (PyStr.strip cand_mode).
Proof.
  unfold _mode_match_score, spec_mode_score.
  destruct (PyStr.lower (PyStr.strip beta_mode)) as [|a b] eqn:Eb.
  - reflexivity.
  - cbn [PyStr.is_empty negb andb String.eqb].
    repeat match goal with
           | |- context [if ?t then _ else _] => destruct t eqn:?
           end;
      simpl in *; try reflexivity; try discriminate;
      repeat match goal with
             | H : (_ && _) = true |- _ => apply andb_prop in H; destruct H
             | H : (_ || _) = true |- _ => apply orb_prop in H; destruct H
             | H : (_ && _) = false |- _ => apply andb_false_iff in H; destruct H
             | H : (_ || _) = false |- _ => apply orb_false_iff in H; destruct H
             end; congruence.
Qed.

Lemma mode_score_empty_primary (c : Candidate) : mode_score "" c = 0%Z.
Proof. reflexivity. Qed.

Lemma prefer_best_mode_zero (beta_mode : string) (cands : list Candidate) :
  series_max (map (mode_score beta_mode) cands) = 0%Z ->
  prefer_best_mode beta_mode cands = cands.
Proof. unfold prefer_best_mode. intros ->. reflexivity. Qed.

Lemma prefer_best_mode_empty_primary (cands : list Candidate) :
  prefer_best_mode "" cands = cands.
Proof.
  destruct cands as [|c cs]; [reflexivity|].
  apply prefer_best_mode_zero.
  assert (Hin : In (series_max (map (mode_score "") (c :: cs)))
                   (map (mode_score "") (c :: cs)))
    by (apply series_max_in; discriminate).
  apply in_map_iff in Hin. destruct Hin as (x & Hx & _).
  rewrite <- Hx. apply mode_score_empty_primary.
Qed.

(** C4, as worded, fails on a primary mode that is not trimmed: the code
    trims before it lower-cases, so "EC " scores 2 against "EC/beta+", where
    the lower-cased text "ec " does not occur in "ec/beta+" and is none of
    the compatibility primaries. *)
Lemma mode_score_untrimmed_primary :
  _mode_match_score "EC " "EC/beta+" = 2%Z /\
  spec_mode_score "EC " "EC/beta+" = 0%Z.
Proof. split; reflexivity. Qed.

(** C4, amended.  The mode score is the worded score of the trimmed texts (so
    a primary mode that is empty, or blank, scores 0); and preferring the best
    score retains exactly the candidates that reach the maximum, which is
    every candidate when the maximum is 0, as it is for an empty primary
    mode. *)
Theorem mode_score_and_retention :
  (forall beta_mode cand_mode,
     _mode_match_score beta_mode cand_mode =
     spec_mode_score (PyStr.strip beta_mode) (PyStr.strip cand_mode)) /\
  (forall cand_mode, _mode_match_score "" cand_mode = 0%Z) /\
  (forall beta_mode cands c,
     In c (prefer_best_mode beta_mode cands) <->
     In c cands /\
     mode_score beta_mode c = series_max (map (mode_score beta_mode) cands)) /\
  (forall beta_mode cands,
     series_max (map (mode_score beta_mode) cands) = 0%Z ->
     prefer_best_mode beta_mode cands = cands) /\
  (forall cands, prefer_best_mode "" cands = cands).
Proof.
  split; [exact mode_match_score_trimmed|].
  split; [reflexivity|].
  split; [exact prefer_best_mode_in|].
  split; [exact prefer_best_mode_zero | exact prefer_best_mode_empty_primary].
Qed.

(** ** The merge loop, row by row *)

Section Loop.

Variable force : bool.
Variable candidates : list Candidate.
Variable overrides : list Override.

Let body := fun st (ir : nat * PrimaryRecord) =>
              loop_body quicksort force candidates overrides st (fst ir) (snd ir).
Let merged := merged_row quicksort force candidates overrides.
Let audited := audit_of_row quicksort force candidates overrides.
Let kept := fun r => has_cur (p_logft r) && negb force.

Lemma set_logft_at_app (done : list PrimaryRecord) (r : PrimaryRecord)
    (todo : list PrimaryRecord) (v : Q) :
  set_logft_at (List.length done) v (done ++ r :: todo) =
  done ++ with_logft (Some v) r :: todo.
Proof.
  induction done as [|d done IH]; simpl; [reflexivity|].
  rewrite IH. reflexivity.
Qed.

Lemma loop_body_step (done : list PrimaryRecord) (r : PrimaryRecord)
    (todo : list PrimaryRecord) (st : LoopState) :
  st_beta st = map merged done ++ r :: todo ->
  let st' := loop_body quicksort force candidates overrides st (List.length done) r in
  st_beta st' = map merged (done ++ [r]) ++ todo /\
  audit_rows st' = audit_rows st ++ [audited r] /\
  skipped st' = (skipped st + if kept r then 1 else 0)%nat /\
  (updated st' + missing st' =
   updated st + missing st + if kept r then 0 else 1)%nat.
Proof.
  intros Hst. unfold loop_body, merged, audited, merged_row, audit_of_row, kept.
  rewrite map_app, <- app_assoc. simpl.
  destruct (has_cur (p_logft r) && negb force) eqn:Ek; simpl.
  - repeat split; try assumption; lia.
  - destruct (choose_logft_for_row quicksort (p_Z r) (p_A r) (PyStr.strip (p_mode r))
                                   candidates overrides) as [[v|] prov];
      simpl; rewrite ?Hst.
    + rewrite <- (length_map (merged_row quicksort force candidates overrides) done).
      rewrite set_logft_at_app. repeat split; lia.
    + repeat split; lia.
Qed.

Lemma loop_steps (todo : list PrimaryRecord) :
  forall (done : list PrimaryRecord) (st : LoopState),
    st_beta st = map merged done ++ todo ->
    let st' := fold_left body (iterrows (List.length done) todo) st in
    st_beta st' = map merged (done ++ todo) /\
    audit_rows st' = audit_rows st ++ map audited todo /\
    skipped st' = (skipped st + List.length (filter kept todo))%nat /\
    (updated st' + missing st' =
     updated st + missing st
     + List.length (filter (fun r => negb (kept r)) todo))%nat.
Proof.
  induction todo as [|r todo IH]; intros done st Hst; simpl.
  - rewrite !app_nil_r. rewrite app_nil_r in Hst.
    repeat split; [assumption | lia | lia].
  - destruct (loop_body_step done r todo st Hst) as (H1 & H2 & H3 & H4).
    change (body st (List.length done, r))
      with (loop_body quicksort force candidates overrides st (List.length done) r).
    specialize (IH (done ++ [r]) _ H1).
    rewrite length_app, Nat.add_comm in IH. simpl in IH.
    destruct IH as (I1 & I2 & I3 & I4).
    rewrite <- app_assoc in I1. simpl in I1.
    split; [exact I1|].
    split; [rewrite I2, H2, <- app_assoc; reflexivity|].
    split; [rewrite I3, H3 | rewrite I4, H4]; destruct (kept r); simpl; lia.
Qed.

Lemma run_loop_rows (rows : list PrimaryRecord) :
  let st := run_loop quicksort force candidates overrides rows in
  st_beta st = map merged rows /\
  audit_rows st = map audited rows /\
  skipped st = List.length (filter kept rows) /\
  (updated st + missing st)%nat
  = List.length (filter (fun r => negb (kept r)) rows).
Proof.
  unfold run_loop.
  apply (loop_steps rows []
           {| st_beta := rows; audit_rows := []; updated := 0; skipped := 0;
              missing := 0 |}).
  reflexivity.
Qed.

End Loop.

(** ** Merge *)

Lemma filter_kept_no_force (rows : list PrimaryRecord) :
  filter (fun r => has_cur (p_logft r) && negb false) rows =
  filter (fun r => has_cur (p_logft r)) rows /\
  filter (fun r => negb (has_cur (p_logft r) && negb false)) rows =
  filter (fun r => negb (has_cur (p_logft r))) rows.
Proof.
  split; apply filter_ext; intros r; simpl; rewrite andb_true_r; reflexivity.
Qed.

(** C2.  In a run without force, a row that has a logft keeps its row in the
    table and gets the audit record "kept_existing" with that value, whatever
    the candidates and overrides are; resolution runs exactly for the rows
    that have no value (the counters [updated] and [missing] count its
    calls); and, forced or not, a row for which resolution returns absent
    keeps its row unchanged. *)
Theorem existing_value_kept (force : bool) (candidates : list Candidate)
    (overrides : list Override) (rows : list PrimaryRecord) :
  let st := run_loop quicksort force candidates overrides rows in
  (force = false ->
   forall i row v,
     nth_error rows i = Some row -> p_logft row = Some v ->
     nth_error (st_beta st) i = Some row /\
     nth_error (audit_rows st) i =
     Some (audit_record row (PyStr.strip (p_mode row)) (Some v) kept_existing)) /\
  (force = false ->
   skipped st = List.length (filter (fun r => has_cur (p_logft r)) rows) /\
   (updated st + missing st)%nat =
   List.length (filter (fun r => negb (has_cur (p_logft r))) rows)) /\
  (forall i row,
     nth_error rows i = Some row ->
     fst (choose_logft_for_row quicksort (p_Z row) (p_A row) (PyStr.strip (p_mode row))
                               candidates overrides) = None ->
     nth_error (st_beta st) i = Some row).
Proof.
  intros st.
  destruct (run_loop_rows force candidates overrides rows)
    as (Hbeta & Haudit & Hskip & Hcalls).
  fold st in Hbeta, Haudit, Hskip, Hcalls.
  split; [|split].
  - intros -> i row v Hi Hv. rewrite Hbeta, Haudit. split.
    + rewrite (map_nth_error _ _ _ Hi). unfold merged_row.
      rewrite Hv. reflexivity.
    + rewrite (map_nth_error _ _ _ Hi). unfold audit_of_row.
      rewrite Hv. reflexivity.
  - intros ->. destruct (filter_kept_no_force rows) as [E1 E2].
    rewrite Hskip, Hcalls, E1, E2. split; reflexivity.
  - intros i row Hi Hnone. rewrite Hbeta, (map_nth_error _ _ _ Hi).
    unfold merged_row. rewrite Hnone.
    destruct (has_cur (p_logft row) && negb force); reflexivity.
Qed.

(** ** The run as a whole *)

Lemma main_runs (args : Args) (beta0 : BetaTable) (cands : list Candidate)
    (ovs : list Override) :
  beta args = Some beta0 ->
  missing_column required_columns beta0 = None ->
  empty (_read_csvs (logft_dir args)) && negb (exists_file (overrides_file args))
  = false ->
  load_candidates (_read_csvs (logft_dir args)) = inr cands ->
  _normalize_overrides (overrides args) (overrides_file args) = inr ovs ->
  main quicksort args = merge_and_write quicksort args (ensure_logft beta0) cands ovs.
Proof.
  unfold main, required_columns. intros -> -> -> -> ->. reflexivity.
Qed.

(** A run that wrote the table went through every input check. *)
Lemma main_written (args : Args) (t : BetaTable) :
  beta_written (main quicksort args) = Some t ->
  exists beta0 cands ovs,
    beta args = Some beta0 /\
    missing_column required_columns beta0 = None /\
    empty (_read_csvs (logft_dir args)) && negb (exists_file (overrides_file args))
    = false /\
    load_candidates (_read_csvs (logft_dir args)) = inr cands /\
    _normalize_overrides (overrides args) (overrides_file args) = inr ovs /\
    main quicksort args = merge_and_write quicksort args (ensure_logft beta0) cands ovs.
Proof.
  unfold main, required_columns.
  destruct (beta args) as [beta0|]; [|discriminate].
  destruct (missing_column _ beta0) eqn:Em; [discriminate|].
  destruct (empty _ && negb _) eqn:Ee; [discriminate|].
  destruct (load_candidates _) as [e|cands] eqn:Ec; [discriminate|].
  destruct (_normalize_overrides _ _) as [e|ovs] eqn:Eo; [discriminate|].
  intros _. exists beta0, cands, ovs. repeat split; assumption.
Qed.

Lemma merge_and_write_table (args : Args) (b : BetaTable)
    (cands : list Candidate) (ovs : list Override) :
  beta_written (merge_and_write quicksort args b cands ovs) =
  Some {| beta_columns := beta_columns b;
          beta_rows := map (merged_row quicksort (force args) cands ovs) (beta_rows b) |}.
Proof.
  unfold merge_and_write.
  destruct (run_loop_rows (force args) cands ovs (beta_rows b)) as (-> & _).
  destruct (audit_rows _); reflexivity.
Qed.

Lemma merge_and_write_audit (args : Args) (b : BetaTable)
    (cands : list Candidate) (ovs : list Override) :
  audit_written (merge_and_write quicksort args b cands ovs) =
  match beta_rows b with
  | [] => None
  | _ => Some (sort_values by_Z_A
                 (map (audit_of_row quicksort (force args) cands ovs) (beta_rows b)))
  end.
Proof.
  unfold merge_and_write.
  destruct (run_loop_rows (force args) cands ovs (beta_rows b)) as (_ & -> & _).
  destruct (beta_rows b); reflexivity.
Qed.

Lemma merge_and_write_outcome (args : Args) (b : BetaTable)
    (cands : list Candidate) (ovs : list Override) :
  outcome (merge_and_write quicksort args b cands ovs) =
  match beta_rows b with
  | [] => Raised (KeyError "Z")
  | _ =>
      if require_complete args
         && negb (still_missing
                    (map (merged_row quicksort (force args) cands ovs) (beta_rows b)) =? 0)%nat
      then Return 3 else Return 0
  end.
Proof.
  unfold merge_and_write.
  destruct (run_loop_rows (force args) cands ovs (beta_rows b))
    as (-> & -> & _).
  destruct (beta_rows b); reflexivity.
Qed.

Lemma missing_column_mono (cols : list string) (b t : BetaTable) :
  (forall c, among c (beta_columns b) = true -> among c (beta_columns t) = true) ->
  missing_column cols b = None -> missing_column cols t = None.
Proof.
  intros Hsub. induction cols as [|c cols IH]; simpl; [reflexivity|].
  destruct (among c (beta_columns b)) eqn:E; [|discriminate].
  rewrite (Hsub c E). exact IH.
Qed.

Lemma among_app (c : string) (l1 l2 : list string) :
  among c (l1 ++ l2) = among c l1 || among c l2.
Proof. apply existsb_app. Qed.

Lemma ensure_logft_columns (b : BetaTable) :
  among "logft" (beta_columns (ensure_logft b)) = true /\
  forall c, among c (beta_columns b) = true ->
            among c (beta_columns (ensure_logft b)) = true.
Proof.
  unfold ensure_logft. destruct (among "logft" (beta_columns b)) eqn:E.
  - split; [exact E | auto].
  - simpl. split.
    + rewrite among_app. apply orb_true_r.
    + intros c Hc. rewrite among_app, Hc. reflexivity.
Qed.

Lemma ensure_logft_done (t : BetaTable) :
  among "logft" (beta_columns t) = true -> ensure_logft t = t.
Proof. unfold ensure_logft. intros ->. reflexivity. Qed.

(** Without force, merging a merged row changes nothing. *)
Lemma merged_row_idempotent (cands : list Candidate) (ovs : list Override)
    (r : PrimaryRecord) :
  merged_row quicksort false cands ovs (merged_row quicksort false cands ovs r) =
  merged_row quicksort false cands ovs r.
Proof.
  unfold merged_row.
  destruct (has_cur (p_logft r) && negb false) eqn:Ek.
  - rewrite Ek. reflexivity.
  - destruct (fst (choose_logft_for_row quicksort (p_Z r) (p_A r) (PyStr.strip (p_mode r))
                                        cands ovs)) as [v|] eqn:Ech.
    + reflexivity.
    + rewrite Ek, Ech. reflexivity.
Qed.

(** Without force, a merged row that still has no logft is one resolution
    finds nothing for. *)
Lemma merged_row_unresolved (cands : list Candidate) (ovs : list Override)
    (r : PrimaryRecord) :
  p_logft (merged_row quicksort false cands ovs r) = None ->
  fst (choose_logft_for_row quicksort (p_Z (merged_row quicksort false cands ovs r))
         (p_A (merged_row quicksort false cands ovs r))
         (PyStr.strip (p_mode (merged_row quicksort false cands ovs r))) cands ovs) = None.
Proof.
  unfold merged_row.
  destruct (has_cur (p_logft r) && negb false) eqn:Ek.
  - intros Hn. rewrite Hn in Ek. discriminate.
  - destruct (fst (choose_logft_for_row quicksort (p_Z r) (p_A r) (PyStr.strip (p_mode r))
                                        cands ovs)) as [v|] eqn:Ech.
    + discriminate.
    + intros _. exact Ech.
Qed.

(** C6.  Without force, a second run on the table the first run wrote, with
    the same sources, writes the same table; its audit reports every row that
    has a logft with method "kept_existing" and that value, and reports a
    logft under no other method. *)
Theorem second_run_idempotent (args : Args) (t : BetaTable) :
  force args = false ->
  beta_written (main quicksort args) = Some t ->
  let second := main quicksort (with_beta args t) in
  beta_written second = Some t /\
  (forall r v,
     In r (beta_rows t) -> p_logft r = Some v ->
     exists audit,
       audit_written second = Some audit /\
       In (audit_record r (PyStr.strip (p_mode r)) (Some v) kept_existing) audit) /\
  (forall audit a,
     audit_written second = Some audit -> In a audit ->
     a_logft a <> None -> a_method a = "kept_existing").
Proof.
  intros Hforce Hw second.
  destruct (main_written args Hw)
    as (beta0 & cands & ovs & Hb & Hm & He & Hc & Ho & Hmain).
  rewrite Hmain, merge_and_write_table, Hforce in Hw. injection Hw as Ht.
  destruct (ensure_logft_columns beta0) as [Hlogft Hcols].
  assert (Hsecond : second = merge_and_write quicksort (with_beta args t) t cands ovs).
  { unfold second.
    rewrite (main_runs (with_beta args t) (beta0 := t) (cands := cands)
                       (ovs := ovs)); try assumption; try reflexivity.
    - rewrite ensure_logft_done; [reflexivity|]. subst t. exact Hlogft.
    - apply missing_column_mono with beta0; [|exact Hm].
      intros c Hin. subst t. apply Hcols, Hin. }
  assert (Hrows : beta_rows t =
                  map (merged_row quicksort false cands ovs) (beta_rows (ensure_logft beta0)))
    by (subst t; reflexivity).
  split; [|split].
  - rewrite Hsecond, merge_and_write_table. cbn [force with_beta].
    rewrite Hforce. f_equal. destruct t as [cols rws]. cbn in *. f_equal.
    rewrite Hrows, map_map. apply map_ext. intros r.
    apply merged_row_idempotent.
  - intros r v Hin Hv. rewrite Hsecond, merge_and_write_audit.
    cbn [force with_beta]. rewrite Hforce.
    destruct (beta_rows t) as [|r0 rs] eqn:Er; [contradiction|].
    eexists. split; [reflexivity|].
    apply sort_values_in, in_map_iff. exists r. split; [|exact Hin].
    unfold audit_of_row. rewrite Hv. reflexivity.
  - intros audit a Ha Hin Hlog. rewrite Hsecond, merge_and_write_audit in Ha.
    cbn [force with_beta] in Ha. rewrite Hforce in Ha.
    destruct (beta_rows t) as [|r0 rs] eqn:Er; [discriminate|].
    assert (Ea : audit = sort_values by_Z_A
                           (map (audit_of_row quicksort false cands ovs) (r0 :: rs)))
      by (injection Ha as <-; reflexivity).
    rewrite Ea in Hin. apply sort_values_in, in_map_iff in Hin.
    destruct Hin as (r & <- & Hr). rewrite Hrows in Hr.
    apply in_map_iff in Hr. destruct Hr as (r1 & <- & _).
    unfold audit_of_row in *.
    destruct (has_cur (p_logft (merged_row quicksort false cands ovs r1)) && negb false)
      eqn:Ek; [reflexivity|].
    exfalso. apply Hlog. cbn [a_logft audit_record].
    apply merged_row_unresolved.
    destruct (p_logft (merged_row quicksort false cands ovs r1)); [discriminate|reflexivity].
Qed.

(** A run either stops before the loop, writing nothing, or reaches it with
    every input loaded. *)
Lemma main_cases (args : Args) :
  (exists o, main quicksort args = stop o /\ o <> Return 3 /\ o <> Return 0) \/
  (exists beta0 cands ovs,
     beta args = Some beta0 /\
     missing_column required_columns beta0 = None /\
     load_candidates (_read_csvs (logft_dir args)) = inr cands /\
     _normalize_overrides (overrides args) (overrides_file args) = inr ovs /\
     main quicksort args = merge_and_write quicksort args (ensure_logft beta0) cands ovs).
Proof.
  unfold main.
  destruct (beta args) as [beta0|];
    [|left; eexists; repeat split; discriminate].
  destruct (missing_column _ beta0) eqn:Em;
    [left; eexists; repeat split; discriminate|].
  destruct (empty _ && negb _) eqn:Ee;
    [left; eexists; repeat split; discriminate|].
  destruct (load_candidates _) as [e|cands] eqn:Ec;
    [left; eexists; repeat split; discriminate|].
  destruct (_normalize_overrides _ _) as [e|ovs] eqn:Eo;
    [left; eexists; repeat split; discriminate|].
  right. exists beta0, cands, ovs. repeat split; try assumption; reflexivity.
Qed.

Lemma still_missing_existsb (rows : list PrimaryRecord) :
  negb (still_missing rows =? 0)%nat = existsb isna rows.
Proof.
  unfold still_missing. induction rows as [|r rows IH]; simpl; [reflexivity|].
  destruct (isna r); simpl; [reflexivity | exact IH].
Qed.

(** C8.  The run returns 2 when the beta table file is missing, and when the
    table is there but there is neither a candidate CSV nor an overrides
    file, writing nothing in both cases; once the table and the audit are
    written it returns 3 exactly when require_complete is set and a logft
    cell of the written table is NaN (line 432 counts [isna()]), and 0
    otherwise; and it returns 3 only after both files are written.  A cell of
    white space is a row without logft for the loop (line 375) and not for
    that count: on the table of [ex_args_blank_text], run with
    require_complete, the row (20, 45) holds such a cell and nothing matches
    it; the run audits the row as "missing" with a blank logft, leaves it
    without a value in the table, and returns 0. *)
Theorem exit_codes (args : Args) :
  (beta args = None -> main quicksort args = stop (Return 2)) /\
  (forall t,
     beta args = Some t -> missing_column required_columns t = None ->
     logft_dir args = [] -> overrides_file args = None ->
     main quicksort args = stop (Return 2)) /\
  (forall t audit,
     beta_written (main quicksort args) = Some t ->
     audit_written (main quicksort args) = Some audit ->
     outcome (main quicksort args) =
     if require_complete args && existsb isna (beta_rows t)
     then Return 3 else Return 0) /\
  (outcome (main quicksort args) = Return 3 ->
   exists t audit,
     beta_written (main quicksort args) = Some t /\ audit_written (main quicksort args) = Some audit) /\
  (require_complete ex_args_blank_text = true /\
   outcome (main quicksort ex_args_blank_text) = Return 0 /\
   exists t audit,
     beta_written (main quicksort ex_args_blank_text) = Some t /\
     audit_written (main quicksort ex_args_blank_text) = Some audit /\
     In ex_row_blank_text (beta_rows t) /\
     has_cur (p_logft ex_row_blank_text) = false /\
     In (audit_record ex_row_blank_text "beta-" None (snd missing_result)) audit).
Proof.
  split; [|split; [|split; [|split]]];
    [| | | |
     split; [reflexivity|]; split; [vm_compute; reflexivity|];
     eexists; eexists;
     split; [vm_compute; reflexivity|];
     split; [vm_compute; reflexivity|];
     split; [left; reflexivity|];
     split; [reflexivity|];
     right; left; reflexivity].
  - unfold main. intros ->. reflexivity.
  - unfold main. intros t -> -> -> ->. reflexivity.
  - intros t audit Ht Ha.
    destruct (main_cases args) as [(o & Hs & _) | (b & c & o & _ & _ & _ & _ & Hm)].
    + rewrite Hs in Ht. discriminate.
    + rewrite Hm in *.
      rewrite merge_and_write_table in Ht. injection Ht as <-.
      rewrite merge_and_write_audit in Ha. rewrite merge_and_write_outcome.
      destruct (beta_rows (ensure_logft b)); [discriminate|].
      cbn [beta_rows]. rewrite still_missing_existsb. reflexivity.
  - intros H3.
    destruct (main_cases args)
      as [(o & Hs & Hn & _) | (b & c & o & _ & _ & _ & _ & Hm)].
    + rewrite Hs in H3. simpl in H3. congruence.
    + rewrite Hm in *. rewrite merge_and_write_outcome in H3.
      rewrite merge_and_write_table, merge_and_write_audit.
      destruct (beta_rows (ensure_logft b)); [discriminate|].
      eexists. eexists. split; reflexivity.
Qed.

(** ** The audit file *)

Lemma by_Z_A_le (a1 a2 : AuditRecord) : by_Z_A a1 a2 = true <-> Z_A_le a1 a2.
Proof. unfold by_Z_A, Z_A_le. lia. Qed.

Lemma sort_by_Z_A_sorted (l : list AuditRecord) :
  StronglySorted Z_A_le (sort_values by_Z_A l).
Proof.
  assert (H : StronglySorted (fun a b => by_Z_A a b = true) (sort_values by_Z_A l)).
  { apply Sorted_StronglySorted.
    - intros x y z. apply by_Z_A_trans.
    - apply sort_values_sorted, by_Z_A_total. }
  induction H as [|a l' Hs IH Hall]; constructor.
  - exact IH.
  - eapply Forall_impl; [|exact Hall]. intros b. apply by_Z_A_le.
Qed.

(** C10.  The audit file, whenever it is written, holds one record per row of
    the table, ordered by Z and then by A; an order that need not be the
    table's: in the example run the table lists (20, 45) before (19, 44) and
    the audit lists them the other way round. *)
Theorem audit_sorted_by_Z_A :
  (forall args t audit,
     beta_written (main quicksort args) = Some t ->
     audit_written (main quicksort args) = Some audit ->
     StronglySorted Z_A_le audit /\
     List.length audit = List.length (beta_rows t)) /\
  (exists args t audit,
     beta_written (main quicksort args) = Some t /\
     audit_written (main quicksort args) = Some audit /\
     map (fun a => (a_Z a, a_A a)) audit <>
     map (fun r => (p_Z r, p_A r)) (beta_rows t)).
Proof.
  split.
  - intros args t audit Ht Ha.
    destruct (main_cases args) as [(o & Hs & _) | (b & c & o & _ & _ & _ & _ & Hm)].
    + rewrite Hs in Ht. discriminate.
    + rewrite Hm in *.
      rewrite merge_and_write_table in Ht. injection Ht as <-.
      rewrite merge_and_write_audit in Ha.
      destruct (beta_rows (ensure_logft b)) as [|r rs] eqn:Er; [discriminate|].
      assert (Ea : audit = sort_values by_Z_A
                             (map (audit_of_row quicksort (force args) c o) (r :: rs)))
        by (injection Ha as <-; reflexivity).
      rewrite Ea. split; [apply sort_by_Z_A_sorted|].
      rewrite (Permutation_length (sort_values_perm by_Z_A _)).
      cbn [beta_rows]. rewrite !length_map. reflexivity.
  - exists (ex_args false). eexists. eexists.
    split; [vm_compute; reflexivity|].
    split; [vm_compute; reflexivity|].
    vm_compute. discriminate.
Qed.

(** ** Schema errors *)

Lemma require_columns_missing (cols : list string) (df : DataFrame) (col : string) :
  In col cols -> has_column df col = false ->
  exists col',
    In col' cols /\ has_column df col' = false /\
    require_columns cols df = inl (RuntimeError col').
Proof.
  induction cols as [|c cols IH]; simpl; intros Hin Hno; [contradiction|].
  destruct (has_column df c) eqn:Ec.
  - destruct Hin as [->|Hin]; [congruence|].
    destruct (IH Hin Hno) as (col' & H1 & H2 & H3).
    exists col'. auto.
  - exists c. auto.
Qed.

Lemma union_labels_in (ls : list string) (c : string) :
  In c (union_labels ls) -> In c ls.
Proof.
  unfold union_labels.
  assert (H : forall acc, In c (fold_left
                (fun acc c0 => if existsb (String.eqb c0) acc then acc
                               else acc ++ [c0]) ls acc) ->
                          In c acc \/ In c ls).
  { induction ls as [|x ls IH]; simpl; intros acc Hin; [left; exact Hin|].
    destruct (IH _ Hin) as [Ha|Hl]; [|right; right; exact Hl].
    destruct (existsb (String.eqb x) acc); [left; exact Ha|].
    apply in_app_or in Ha. destruct Ha as [Ha|[<-|[]]]; auto. }
  intros Hin. destruct (H [] Hin) as [[]|Hl]. exact Hl.
Qed.

Lemma read_tagged_columns (f : CsvFile) (c : string) :
  In c (columns (read_tagged f)) -> c = "__file__" \/ In c (columns (snd f)).
Proof.
  unfold read_tagged, set_item. cbn [columns].
  destruct (has_column (snd f) "__file__"); [right; assumption|].
  intros Hin. apply in_app_or in Hin. destruct Hin as [Hin|[<-|[]]]; auto.
Qed.

Lemma read_csvs_columns (glob_files : list CsvFile) (c : string) :
  In c (columns (_read_csvs glob_files)) ->
  c = "__file__" \/ exists f, In f glob_files /\ In c (columns (snd f)).
Proof.
  unfold _read_csvs.
  destruct (sort_values by_path glob_files) as [|f0 fs] eqn:Es; [intros []|].
  rewrite <- Es. unfold concat. cbn [columns]. intros Hin.
  apply union_labels_in, in_flat_map in Hin. destruct Hin as (df & Hdf & Hc).
  apply in_map_iff in Hdf. destruct Hdf as (f & <- & Hf).
  apply sort_values_in in Hf.
  destruct (read_tagged_columns f c Hc) as [->|Hin]; [left; reflexivity|].
  right. exists f. auto.
Qed.

Lemma has_column_rename (lab : string -> string) (df : DataFrame) (col : string) :
  has_column (rename lab df) col = true <->
  exists c, In c (columns df) /\ lab c = col.
Proof.
  unfold has_column, rename. cbn [columns]. rewrite existsb_exists. split.
  - intros (x & Hx & He). apply in_map_iff in Hx. destruct Hx as (c & <- & Hc).
    apply String.eqb_eq in He. exists c. auto.
  - intros (c & Hc & <-). exists (lab c). split; [apply in_map, Hc|].
    apply String.eqb_refl.
Qed.

(** A required column that no source has is absent from the frame the
    sources are concatenated to. *)
Lemma read_csvs_lacks (glob_files : list CsvFile) (col : string) :
  In col ["Z"; "A"; "logft"] ->
  (forall f, In f glob_files ->
             has_column (rename candidate_label (snd f)) col = false) ->
  has_column (rename candidate_label (_read_csvs glob_files)) col = false.
Proof.
  intros Hcol Hall.
  destruct (has_column (rename candidate_label (_read_csvs glob_files)) col)
    eqn:E; [|reflexivity].
  apply has_column_rename in E. destruct E as (c & Hc & Hlab).
  destruct (read_csvs_columns _ _ Hc) as [->|(f & Hf & Hin)].
  - exfalso. subst col. vm_compute in Hcol.
    repeat (destruct Hcol as [Hcol|Hcol]; [discriminate|]). exact Hcol.
  - rewrite <- (Hall f Hf). symmetry. apply has_column_rename.
    exists c. auto.
Qed.

Lemma normalize_candidates_schema (df : DataFrame) (col : string) :
  empty df = false ->
  In col ["Z"; "A"; "logft"] ->
  has_column (rename candidate_label df) col = false ->
  exists col',
    In col' ["Z"; "A"; "logft"] /\
    has_column (rename candidate_label df) col' = false /\
    _normalize_candidates df = inl (RuntimeError col').
Proof.
  intros He Hcol Hno.
  destruct (@require_columns_missing _ _ _ Hcol Hno) as (col' & H1 & H2 & H3).
  exists col'. split; [exact H1|]. split; [exact H2|].
  unfold _normalize_candidates. rewrite He, H3. reflexivity.
Qed.

Lemma normalize_overrides_schema (path : string) (df : DataFrame) (col : string) :
  In col ["Z"; "A"; "logft"] ->
  has_column (rename override_label df) col = false ->
  exists col',
    In col' ["Z"; "A"; "logft"] /\
    has_column (rename override_label df) col' = false /\
    _normalize_overrides path (Some df) = inl (RuntimeError col').
Proof.
  intros Hcol Hno.
  destruct (@require_columns_missing _ _ _ Hcol Hno) as (col' & H1 & H2 & H3).
  exists col'. split; [exact H1|]. split; [exact H2|].
  unfold _normalize_overrides. rewrite H3. reflexivity.
Qed.

(** C9, amended.  With a readable beta table: when the candidate sources
    hold a row and none of them has column Z, A or logft after the synonym
    mapping, and likewise when the overrides file lacks one of the three (the
    candidates having loaded), the run ends in the schema error for an absent
    column of the trio and writes nothing; and no run that ends in a schema
    error has written a file. *)
Theorem schema_error_before_writes (args : Args) (t : BetaTable) (col : string) :
  beta args = Some t ->
  missing_column required_columns t = None ->
  In col ["Z"; "A"; "logft"] ->
  (empty (_read_csvs (logft_dir args)) = false ->
   (forall f, In f (logft_dir args) ->
              has_column (rename candidate_label (snd f)) col = false) ->
   exists col',
     In col' ["Z"; "A"; "logft"] /\
     main quicksort args = stop (Raised (RuntimeError col'))) /\
  (forall df cands,
     overrides_file args = Some df ->
     has_column (rename override_label df) col = false ->
     load_candidates (_read_csvs (logft_dir args)) = inr cands ->
     exists col',
       In col' ["Z"; "A"; "logft"] /\
       main quicksort args = stop (Raised (RuntimeError col'))) /\
  (forall c,
     outcome (main quicksort args) = Raised (RuntimeError c) ->
     beta_written (main quicksort args) = None /\ audit_written (main quicksort args) = None).
Proof.
  intros Hb Hm Hcol. split; [|split].
  - intros He Hall.
    destruct (normalize_candidates_schema _ He Hcol
                (read_csvs_lacks _ Hcol Hall)) as (col' & H1 & _ & H3).
    exists col'. split; [exact H1|].
    unfold main, load_candidates. rewrite Hb, Hm, He, H3. reflexivity.
  - intros df cands Hf Hno Hc.
    destruct (normalize_overrides_schema (overrides args) df Hcol Hno)
      as (col' & H1 & _ & H3).
    exists col'. split; [exact H1|].
    unfold main. rewrite Hb, Hm, Hc, Hf, H3. simpl.
    rewrite andb_false_r. reflexivity.
  - intros c Hout.
    destruct (main_cases args)
      as [(o & Hs & _) | (b & cs & o & _ & _ & _ & _ & Hmw)].
    + rewrite Hs. split; reflexivity.
    + rewrite Hmw, merge_and_write_outcome in Hout.
      destruct (beta_rows (ensure_logft b)); [discriminate|].
      destruct (_ && _); discriminate.
Qed.

(** ** Branching ratio normalization *)

Lemma Forall2_map_right (A B : Type) (P : A -> B -> Prop) (f : A -> B)
    (l : list A) :
  (forall x, P x (f x)) -> Forall2 P l (map f l).
Proof. intros H. induction l; simpl; constructor; auto. Qed.

(** C7, as worded, fails: the percentage column of a.csv is set in the first
    row and blank in the second, and the blank one is filled from the
    fraction column, 0.2 * 100. *)
Lemma blank_percentage_filled_from_fraction :
  map (fun r => to_numeric (get r "br_pct"))
      (rows (rename candidate_label (_read_csvs [ex_source_a])))
  = [Some 80%Q; None] /\
  exists c1 c2 p,
    _normalize_candidates (_read_csvs [ex_source_a]) = inr [c1; c2] /\
    c_br_pct c2 = Some p /\ (p == 20)%Q.
Proof.
  split; [reflexivity|].
  eexists. eexists. eexists.
  split; [vm_compute; reflexivity|].
  split; [reflexivity|]. reflexivity.
Qed.

(** C7, amended.  Row by row: a row whose percentage is a number keeps it;
    a row whose percentage is missing (no such column, or a blank or
    non-numeric cell) gets fraction * 100 when there is a fraction column,
    whatever the other rows of the file hold, and stays unknown
    otherwise. *)
Theorem branching_fill_row_wise (df : DataFrame) (cands : list Candidate) :
  empty df = false ->
  _normalize_candidates df = inr cands ->
  let out := rename candidate_label df in
  Forall2
    (fun r c =>
       match (if has_column out "br_pct" then to_numeric (get r "br_pct")
              else None) with
       | Some p => c_br_pct c = Some p
       | None =>
           c_br_pct c =
           if has_column out "br"
           then option_map (fun br => (br * 100)%Q) (to_numeric (get r "br"))
           else None
       end)
    (filter complete (rows out)) cands.
Proof.
  intros He H out. rewrite (normalize_candidates_rows _ He H). fold out.
  apply Forall2_map_right. intros r. cbn [candidate_of_row c_br_pct].
  unfold branching_pct.
  destruct (has_column out "br_pct"), (has_column out "br");
    destruct (to_numeric (get r "br_pct")); try reflexivity;
    destruct (to_numeric (get r "br")); reflexivity.
Qed.

End Properties.

(** ** The two sorts on logft *)

Lemma sort_keeping_ties_sorts (l : list Candidate) :
  Permutation (sort_keeping_ties l) l /\
  Sorted (fun a b => by_logft_asc a b = true) (sort_keeping_ties l).
Proof.
  split; [apply sort_values_perm|].
  apply sort_values_sorted, by_logft_asc_total.
Qed.

Lemma sort_reversing_ties_sorts (l : list Candidate) :
  Permutation (sort_reversing_ties l) l /\
  Sorted (fun a b => by_logft_asc a b = true) (sort_reversing_ties l).
Proof.
  split; [apply sort_values_perm|].
  apply sort_values_sorted_for; unfold by_logft_strict, by_logft_asc, Qltb;
    intros x y H.
  - destruct (Qle_bool (c_logft y) (c_logft x)) eqn:E; [discriminate|].
    q_facts. apply Qle_bool_iff. lra.
  - destruct (Qle_bool (c_logft y) (c_logft x)) eqn:E; [reflexivity|discriminate].
Qed.

(** C5.  The index lists the candidates by source file in lexicographic order
    of the paths and, within a file, in row order.  Where resolution sorts on
    two columns (a retained candidate has a known branching percentage), the
    selected candidate has no candidate before it in the index that ties with
    it on mode score, percentage and logft: the earliest wins.  Where it
    sorts on logft alone, the selected candidate follows the sort: of two
    candidates that tie on everything, a sort that keeps tied rows in order
    selects the first and one that reverses them selects the second, and both
    return the rows in ascending order, which is all pandas promises of its
    default sort. *)
Theorem tied_candidate_choice :
  (forall glob_files cands,
     empty (_read_csvs glob_files) = false ->
     _normalize_candidates (_read_csvs glob_files) = inr cands ->
     exists files,
       Permutation files glob_files /\
       Sorted (fun f g => String.leb (fst f) (fst g) = true) files /\
       cands = flat_map
                 (candidates_of_file
                    (rename candidate_label (_read_csvs glob_files)))
                 files) /\
  (forall quicksort Z A beta_mode candidates overrides,
     filter (over_at Z A) overrides = [] ->
     existsb br_known
       (prefer_best_mode beta_mode (filter (cand_at Z A) candidates)) = true ->
     let res := choose_logft_for_row quicksort Z A beta_mode candidates overrides in
     exists before w after,
       candidates = before ++ w :: after /\
       cand_at Z A w = true /\
       fst res = Some (c_logft w) /\
       source (snd res) = c_source w /\
       cand_mode (snd res) = c_mode w /\
       forall c,
         In c before ->
         cand_at Z A c = true ->
         mode_score beta_mode c = mode_score beta_mode w ->
         same_br c w ->
         (c_logft c == c_logft w)%Q ->
         False) /\
  ((forall l, Permutation (sort_keeping_ties l) l /\
              Sorted (fun a b => by_logft_asc a b = true) (sort_keeping_ties l)) /\
   (forall l, Permutation (sort_reversing_ties l) l /\
              Sorted (fun a b => by_logft_asc a b = true) (sort_reversing_ties l)) /\
   choose_logft_for_row sort_keeping_ties 19 44 "beta-"
                        [ex_tied "first"; ex_tied "second"] [] =
   (Some 5.3%Q,
    {| method := "candidate_min_logft"; source := "first"; cand_mode := "beta-";
       br_pct_used := None; note := "" |}) /\
   choose_logft_for_row sort_reversing_ties 19 44 "beta-"
                        [ex_tied "first"; ex_tied "second"] [] =
   (Some 5.3%Q,
    {| method := "candidate_min_logft"; source := "second"; cand_mode := "beta-";
       br_pct_used := None; note := "" |})).
Proof.
  split; [exact index_in_path_order|].
  split; [exact earliest_in_index|].
  split; [exact sort_keeping_ties_sorts|].
  split; [exact sort_reversing_ties_sorts|].
  split; reflexivity.
Qed.

(** C9, as worded, fails when another source supplies the column: source
    b.csv has no logft column, source a.csv has one; the sources are
    concatenated before the check, normalisation succeeds (the rows of b.csv
    are dropped) and the run returns 0 with both files written. *)
Lemma source_without_logft_accepted :
  In ex_source_b (logft_dir (ex_args false)) /\
  has_column (rename candidate_label (snd ex_source_b)) "logft" = false /\
  (exists cands,
     _normalize_candidates (_read_csvs (logft_dir (ex_args false))) = inr cands) /\
  outcome (main sort_keeping_ties (ex_args false)) = Return 0 /\
  beta_written (main sort_keeping_ties (ex_args false)) <> None /\
  audit_written (main sort_keeping_ties (ex_args false)) <> None.
Proof.
  split; [left; reflexivity|].
  split; [reflexivity|].
  split; [eexists; vm_compute; reflexivity|].
  split; [vm_compute; reflexivity|].
  split; vm_compute; discriminate.
Qed.

(** ** The statements on the example run *)

Lemma override_precedence_witness :
  choose_logft_for_row sort_keeping_ties 19 44 "beta-" [ex_cand_80; ex_cand_20]
                       ([ex_other_override] ++ ex_override :: []) =
  (Some (o_logft ex_override),
   {| method := "override"; source := "curated"; cand_mode := "";
      br_pct_used := None; note := "" |}).
Proof.
  apply (override_precedence sort_keeping_ties 19 44 "beta-"
           [ex_cand_80; ex_cand_20] [ex_other_override] ex_override []).
  - intros o [<-|[]]. reflexivity.
  - reflexivity.
Defined.

Lemma existing_value_kept_witness :
  let st := run_loop sort_keeping_ties false [ex_cand_80] []
                     [ex_row_kept; ex_row_20_45] in
  (nth_error (st_beta st) 0 = Some ex_row_kept /\
   nth_error (audit_rows st) 0 =
   Some (audit_record ex_row_kept "beta-" (Some 4.9%Q) kept_existing)) /\
  nth_error (st_beta st) 1 = Some ex_row_20_45.
Proof.
  intros st.
  destruct (existing_value_kept sort_keeping_ties false [ex_cand_80] []
                                [ex_row_kept; ex_row_20_45])
    as (Hkeep & _ & Habsent).
  split.
  - exact (Hkeep eq_refl 0%nat ex_row_kept 4.9%Q eq_refl eq_refl).
  - exact (Habsent 1%nat ex_row_20_45 eq_refl eq_refl).
Defined.


Lemma tied_candidate_choice_witness :
  (exists files,
     Permutation files [ex_source_b; ex_source_a] /\
     Sorted (fun f g => String.leb (fst f) (fst g) = true) files) /\
  (exists before w after,
     [ex_cand_20; ex_cand_80] = before ++ w :: after /\
     source (snd (choose_logft_for_row sort_reversing_ties 19 44 "beta-"
                    [ex_cand_20; ex_cand_80] [])) = c_source w).
Proof.
  destruct tied_candidate_choice as (Horder & Hfirst & _). split.
  - edestruct (Horder [ex_source_b; ex_source_a]) as (files & Hp & Hs & _).
    + reflexivity.
    + vm_compute. reflexivity.
    + exists files. split; assumption.
  - destruct (Hfirst sort_reversing_ties 19%Z 44%Z "beta-"
                     [ex_cand_20; ex_cand_80] [] eq_refl eq_refl)
      as (before & w & after & H1 & _ & _ & H4 & _).
    exists before, w, after. split; assumption.
Defined.

Lemma mode_score_and_retention_witness :
  _mode_match_score " Beta- " "beta-" = 2%Z /\
  prefer_best_mode "nan" [ex_cand_80; ex_cand_20] = [ex_cand_80; ex_cand_20].
Proof.
  destruct mode_score_and_retention as (Hscore & _ & _ & Hzero & _). split.
  - rewrite Hscore. reflexivity.
  - apply Hzero. reflexivity.
Defined.

Lemma second_run_idempotent_witness :
  beta_written (main sort_keeping_ties (with_beta (ex_args false) ex_table_written))
  = Some ex_table_written.
Proof.
  refine (proj1 (second_run_idempotent sort_keeping_ties (ex_args false)
                   (t := ex_table_written) _ _)).
  - reflexivity.
  - vm_compute. reflexivity.
Defined.

Lemma branching_fill_row_wise_witness :
  exists cands,
    _normalize_candidates (_read_csvs [ex_source_a]) = inr cands /\
    List.length cands = 2%nat.
Proof.
  eexists. split; [vm_compute; reflexivity|].
  apply Forall2_length
    with (1 := branching_fill_row_wise (_read_csvs [ex_source_a]) eq_refl eq_refl).
Defined.

Lemma exit_codes_witness :
  outcome (main sort_keeping_ties (ex_args true)) = Return 3 /\
  outcome (main sort_keeping_ties (ex_args false)) = Return 0.
Proof.
  split.
  - destruct (exit_codes sort_keeping_ties (ex_args true)) as (_ & _ & H & _).
    erewrite (H ex_table_written);
      [reflexivity | vm_compute; reflexivity | vm_compute; reflexivity].
  - destruct (exit_codes sort_keeping_ties (ex_args false)) as (_ & _ & H & _).
    erewrite (H ex_table_written);
      [reflexivity | vm_compute; reflexivity | vm_compute; reflexivity].
Defined.

Lemma schema_error_before_writes_witness :
  exists col,
    In col ["Z"; "A"; "logft"] /\
    main sort_keeping_ties ex_args_no_logft = stop (Raised (RuntimeError col)).
Proof.
  destruct (schema_error_before_writes sort_keeping_ties ex_args_no_logft
              (t := ex_beta) (col := "logft") eq_refl eq_refl)
    as (H & _ & _).
  - right. right. left. reflexivity.
  - apply H.
    + reflexivity.
    + intros f [<-|[]]. reflexivity.
Defined.

Lemma audit_sorted_by_Z_A_witness :
  exists audit,
    audit_written (main sort_keeping_ties (ex_args false)) = Some audit /\
    StronglySorted Z_A_le audit.
Proof.
  eexists. split; [vm_compute; reflexivity|].
  refine (proj1 (proj1 (audit_sorted_by_Z_A sort_keeping_ties) (ex_args false)
                   ex_table_written _ _ _)).
  - vm_compute. reflexivity.
  - vm_compute. reflexivity.
Defined.

(** * Further properties of the resolution engine *)

Section FurtherResolution.

Variable quicksort : list Candidate -> list Candidate.

Hypothesis quicksort_perm : forall l, Permutation (quicksort l) l.

(** Without a matching override, a resolved value comes from a retained
    candidate. *)
Lemma choose_winner (Z A : Z) (beta_mode : string)
    (candidates : list Candidate) (overrides : list Override) (v : Q) :
  filter (over_at Z A) overrides = [] ->
  fst (choose_logft_for_row quicksort Z A beta_mode candidates overrides)
  = Some v ->
  exists w,
    In w (prefer_best_mode beta_mode (filter (cand_at Z A) candidates)) /\
    choose_logft_for_row quicksort Z A beta_mode candidates overrides =
    (Some (c_logft w),
     {| method := if existsb br_known
                       (prefer_best_mode beta_mode
                          (filter (cand_at Z A) candidates))
                  then "candidate_highest_br" else "candidate_min_logft";
        source := c_source w; cand_mode := c_mode w;
        br_pct_used := if existsb br_known
                            (prefer_best_mode beta_mode
                               (filter (cand_at Z A) candidates))
                       then c_br_pct w else None;
        note := "" |}).
Proof.
  intros Hov Hv.
  destruct (filter (cand_at Z A) candidates) as [|c0 cs] eqn:Ef.
  - unfold choose_logft_for_row in Hv. rewrite Hov, Ef in Hv. discriminate.
  - assert (Hc : filter (cand_at Z A) candidates <> []) by (rewrite Ef; discriminate).
    rewrite <- Ef.
    destruct (existsb br_known
                (prefer_best_mode beta_mode (filter (cand_at Z A) candidates)))
      eqn:Hb.
    + destruct (choose_highest_br quicksort Z A beta_mode candidates overrides
                  Hov Hb) as (w & rest & Hs & Hres).
      exists w. split; [|exact Hres].
      apply (sort_values_in by_br_desc_logft_asc). rewrite Hs. left. reflexivity.
    + destruct (choose_min_logft quicksort quicksort_perm Z A beta_mode
                  candidates overrides Hov Hc Hb) as (w & rest & Hs & Hres).
      exists w. split; [|exact Hres].
      apply (Permutation_in _ (quicksort_perm _)). rewrite Hs. left. reflexivity.
Qed.

Lemma choose_absent_iff (Z A : Z) (beta_mode : string)
    (candidates : list Candidate) (overrides : list Override) :
  let res := choose_logft_for_row quicksort Z A beta_mode candidates overrides in
  (fst res = None <->
   filter (over_at Z A) overrides = [] /\ filter (cand_at Z A) candidates = []) /\
  (method (snd res) = "missing" <-> fst res = None).
Proof.
  intros res.
  destruct (filter (over_at Z A) overrides) as [|o os] eqn:Hov.
  - destruct (filter (cand_at Z A) candidates) as [|c0 cs] eqn:Ef.
    + assert (Hres : res = missing_result).
      { unfold res, choose_logft_for_row. rewrite Hov, Ef. reflexivity. }
      rewrite Hres. simpl. repeat split; auto.
    + assert (Hc : filter (cand_at Z A) candidates <> [])
        by (rewrite Ef; discriminate).
      destruct (existsb br_known
                  (prefer_best_mode beta_mode (filter (cand_at Z A) candidates)))
        eqn:Hb.
      * destruct (choose_highest_br quicksort Z A beta_mode candidates overrides
                    Hov Hb) as (w & rest & _ & Hres).
        fold res in Hres. rewrite Hres. simpl.
        repeat split; try discriminate; intros [_ H]; discriminate.
      * destruct (choose_min_logft quicksort quicksort_perm Z A beta_mode
                    candidates overrides Hov Hc Hb) as (w & rest & _ & Hres).
        fold res in Hres. rewrite Hres. simpl.
        repeat split; try discriminate; intros [_ H]; discriminate.
  - assert (Hres : res =
                   (Some (o_logft o),
                    {| method := "override"; source := o_source o;
                       cand_mode := o_mode o; br_pct_used := None;
                       note := o_note o |})).
    { unfold res, choose_logft_for_row. rewrite Hov. reflexivity. }
    rewrite Hres. simpl.
    repeat split; try discriminate; intros [H _]; discriminate.
Qed.

(** X1.  Resolution returns absent exactly when neither an override nor a
    candidate matches (Z, A), and that is exactly when its method is
    "missing". *)
Theorem absent_iff_no_match (Z A : Z) (beta_mode : string)
    (candidates : list Candidate) (overrides : list Override) :
  let res := choose_logft_for_row quicksort Z A beta_mode candidates overrides in
  (fst res = None <->
   filter (over_at Z A) overrides = [] /\ filter (cand_at Z A) candidates = []) /\
  (method (snd res) = "missing" <-> fst res = None).
Proof.
  intros res.
  destruct (choose_absent_iff Z A beta_mode candidates overrides) as [H1 H2].
  split; [exact H1 | exact H2].
Qed.

(** X2.  A resolved value is never made up and never taken from another
    nuclide: it is the logft of an override that matches (Z, A), or, when no
    override matches, of a candidate that matches (Z, A), and the provenance
    names that record's source. *)
Theorem resolved_value_from_matching_record (Z A : Z) (beta_mode : string)
    (candidates : list Candidate) (overrides : list Override) (v : Q) :
  let res := choose_logft_for_row quicksort Z A beta_mode candidates overrides in
  fst res = Some v ->
  (exists o,
     In o overrides /\ over_at Z A o = true /\ v = o_logft o /\
     source (snd res) = o_source o /\ method (snd res) = "override") \/
  (filter (over_at Z A) overrides = [] /\
   exists c,
     In c candidates /\ cand_at Z A c = true /\ v = c_logft c /\
     source (snd res) = c_source c /\ cand_mode (snd res) = c_mode c).
Proof.
  intros res Hv.
  destruct (filter (over_at Z A) overrides) as [|o os] eqn:Hov.
  - right. split; [reflexivity|].
    destruct (choose_winner Z A beta_mode candidates overrides Hov Hv)
      as (w & Hin & Hres).
    fold res in Hres. exists w.
    apply prefer_best_mode_in in Hin. destruct Hin as [Hin _].
    apply filter_In in Hin. destruct Hin as [Hin Hat].
    rewrite Hres in Hv |- *. simpl in *.
    injection Hv as <-. repeat split; assumption.
  - left. exists o.
    assert (Ho : In o (filter (over_at Z A) overrides))
      by (rewrite Hov; left; reflexivity).
    apply filter_In in Ho. destruct Ho as [Hin Hat].
    unfold res, choose_logft_for_row in Hv |- *. rewrite Hov in Hv |- *.
    simpl in *. injection Hv as <-. repeat split; assumption.
Qed.

(** X3.  Mode preference comes before every tie-break: without a matching
    override, the selected candidate reaches the highest mode score among the
    candidates of (Z, A); a candidate with a lower score is never selected,
    whatever its branching percentage or logft. *)
Theorem best_mode_score_wins (Z A : Z) (beta_mode : string)
    (candidates : list Candidate) (overrides : list Override) (v : Q) :
  let res := choose_logft_for_row quicksort Z A beta_mode candidates overrides in
  filter (over_at Z A) overrides = [] ->
  fst res = Some v ->
  exists w,
    In w candidates /\ cand_at Z A w = true /\
    v = c_logft w /\ source (snd res) = c_source w /\
    cand_mode (snd res) = c_mode w /\
    forall c, In c candidates -> cand_at Z A c = true ->
              (mode_score beta_mode c <= mode_score beta_mode w)%Z.
Proof.
  intros res Hov Hv.
  destruct (choose_winner Z A beta_mode candidates overrides Hov Hv)
    as (w & Hin & Hres).
  fold res in Hres. exists w.
  apply prefer_best_mode_in in Hin. destruct Hin as [Hin Hmax].
  apply filter_In in Hin. destruct Hin as [Hin Hat].
  rewrite Hres in Hv |- *. simpl in *. injection Hv as <-.
  repeat split; try assumption.
  intros c Hc Hcat. rewrite Hmax. apply series_max_ge, in_map, filter_In.
  split; assumption.
Qed.

End FurtherResolution.

(** The first row of the two-column sort has a known percentage as soon as
    one row has. *)
Lemma highest_br_top_known (kept : list Candidate) (w : Candidate)
    (rest : list Candidate) :
  existsb br_known kept = true ->
  sort_values by_br_desc_logft_asc kept = w :: rest ->
  exists p, c_br_pct w = Some p.
Proof.
  intros Hb Hs.
  destruct (sort_values_least by_br_desc_logft_asc by_br_desc_logft_asc_total
              by_br_desc_logft_asc_trans _ Hs) as [_ Hleast].
  apply existsb_exists in Hb. destruct Hb as (c0 & Hc0 & Hk0).
  unfold br_known in Hk0. destruct (c_br_pct c0) as [q0|] eqn:Eq0; [|discriminate].
  destruct (by_br_desc_logft_asc_spec _ _ (Hleast c0 Hc0) Eq0) as (p & Hp & _).
  exists p. exact Hp.
Qed.

(** X4.  The audit's [br_pct_used] is filled exactly under the method
    "candidate_highest_br": that method always reports a percentage (the
    blank alternative of line 309 is never taken), and no other method
    reports one.  This holds whatever the sort on logft does. *)
Theorem br_pct_used_iff_highest_br (quicksort : list Candidate -> list Candidate)
    (Z A : Z) (beta_mode : string) (candidates : list Candidate)
    (overrides : list Override) :
  let res := choose_logft_for_row quicksort Z A beta_mode candidates overrides in
  (method (snd res) = "candidate_highest_br" ->
   exists p, br_pct_used (snd res) = Some p) /\
  (forall p, br_pct_used (snd res) = Some p ->
             method (snd res) = "candidate_highest_br").
Proof.
  intros res.
  destruct (filter (over_at Z A) overrides) as [|o os] eqn:Hov.
  - destruct (existsb br_known
                (prefer_best_mode beta_mode (filter (cand_at Z A) candidates)))
      eqn:Hb.
    + destruct (choose_highest_br quicksort Z A beta_mode candidates overrides
                  Hov Hb) as (w & rest & Hs & Hres).
      fold res in Hres. rewrite Hres. simpl. split; [|reflexivity].
      intros _. exact (highest_br_top_known _ Hb Hs).
    + assert (Hno : br_pct_used (snd res) = None /\
                    method (snd res) <> "candidate_highest_br").
      { unfold res, choose_logft_for_row. rewrite Hov.
        destruct (filter (cand_at Z A) candidates) as [|c0 cs] eqn:Ef.
        - split; [reflexivity | discriminate].
        - cbv beta iota zeta. rewrite Hb.
          destruct (quicksort _); split; try reflexivity; discriminate. }
      destruct Hno as [Hbr Hm]. rewrite Hbr. split.
      * intros H. contradiction.
      * intros p H. discriminate.
  - assert (Hres : res =
                   (Some (o_logft o),
                    {| method := "override"; source := o_source o;
                       cand_mode := o_mode o; br_pct_used := None;
                       note := o_note o |})).
    { unfold res, choose_logft_for_row. rewrite Hov. reflexivity. }
    rewrite Hres. simpl. split; [discriminate|]. intros p H. discriminate.
Qed.

Lemma filter_idem (A : Type) (p : A -> bool) (l : list A) :
  filter p (filter p l) = filter p l.
Proof.
  rewrite filter_filter. apply filter_ext. intros x. apply andb_diag.
Qed.

(** X5.  Resolution of (Z, A) reads only the records of (Z, A): candidates
    and overrides of other nuclides never change its result. *)
Theorem resolution_reads_only_its_key
    (quicksort : list Candidate -> list Candidate) (Z A : Z)
    (beta_mode : string) (candidates : list Candidate)
    (overrides : list Override) :
  choose_logft_for_row quicksort Z A beta_mode candidates overrides =
  choose_logft_for_row quicksort Z A beta_mode
    (filter (cand_at Z A) candidates) (filter (over_at Z A) overrides).
Proof.
  unfold choose_logft_for_row. rewrite !filter_idem. reflexivity.
Qed.

(** * Further properties of the mode score *)

(** X6.  The score 1 has a single source: a primary mode that reads "beta+"
    against a candidate mode that contains "ec" and not "beta+".  The
    compatibility tests for "ec" and "beta-" never decide a score: what they
    test already scores 2. *)
Theorem score_one_is_beta_plus_against_ec (beta_mode cand_mode : string) :
  _mode_match_score beta_mode cand_mode = 1%Z <->
  PyStr.lower (PyStr.strip beta_mode) = "beta+" /\
  PyStr.contains "ec" (PyStr.lower (PyStr.strip cand_mode)) = true /\
  PyStr.contains "beta+" (PyStr.lower (PyStr.strip cand_mode)) = false.
Proof.
  unfold _mode_match_score.
  remember (PyStr.lower (PyStr.strip beta_mode)) as b eqn:Eb.
  remember (PyStr.lower (PyStr.strip cand_mode)) as c eqn:Ec.
  clear Eb Ec. split.
  - destruct (PyStr.is_empty b); [discriminate|].
    destruct (PyStr.contains b c && negb (b =? "")) eqn:E2; [discriminate|].
    destruct (b =? "ec") eqn:Eec.
    { apply String.eqb_eq in Eec. subst b. simpl in E2.
      rewrite andb_true_r in E2. rewrite E2. simpl.
      change ("ec" =? "beta+") with false. simpl.
      change ("ec" =? "beta-") with false. simpl. discriminate. }
    simpl. destruct (b =? "beta+") eqn:Ebp.
    { apply String.eqb_eq in Ebp. subst b. simpl in E2.
      rewrite andb_true_r in E2. rewrite E2. simpl.
      destruct (PyStr.contains "ec" c) eqn:Ece; simpl.
      - intros _. auto.
      - change ("beta+" =? "beta-") with false. simpl. discriminate. }
    simpl. destruct (b =? "beta-") eqn:Ebm.
    { apply String.eqb_eq in Ebm. subst b. simpl in E2.
      rewrite andb_true_r in E2. rewrite E2. simpl. discriminate. }
    simpl. discriminate.
  - intros (-> & Hec & Hbp). simpl. rewrite Hbp, Hec. reflexivity.
Qed.

Lemma lower_char_idem (a : ascii) :
  PyStr.lower_char (PyStr.lower_char a) = PyStr.lower_char a.
Proof.
  destruct a as [b0 b1 b2 b3 b4 b5 b6 b7];
    destruct b0, b1, b2, b3, b4, b5, b6, b7; reflexivity.
Qed.

Lemma is_space_lower_char (a : ascii) :
  PyStr.is_space (PyStr.lower_char a) = PyStr.is_space a.
Proof.
  destruct a as [b0 b1 b2 b3 b4 b5 b6 b7];
    destruct b0, b1, b2, b3, b4, b5, b6, b7; reflexivity.
Qed.

Lemma lower_idem (s : string) : PyStr.lower (PyStr.lower s) = PyStr.lower s.
Proof.
  induction s as [|a s IH]; simpl; [reflexivity|].
  rewrite lower_char_idem, IH. reflexivity.
Qed.

Lemma lstrip_lower (s : string) :
  PyStr.lstrip (PyStr.lower s) = PyStr.lower (PyStr.lstrip s).
Proof.
  induction s as [|a s IH]; simpl; [reflexivity|].
  rewrite is_space_lower_char. destruct (PyStr.is_space a); [exact IH|reflexivity].
Qed.

Lemma rstrip_lower (s : string) :
  PyStr.rstrip (PyStr.lower s) = PyStr.lower (PyStr.rstrip s).
Proof.
  induction s as [|a s IH]; simpl; [reflexivity|].
  rewrite IH, is_space_lower_char.
  destruct (PyStr.rstrip s); simpl; [destruct (PyStr.is_space a)|]; reflexivity.
Qed.

Lemma strip_lower (s : string) :
  PyStr.strip (PyStr.lower s) = PyStr.lower (PyStr.strip s).
Proof. unfold PyStr.strip. rewrite lstrip_lower, rstrip_lower. reflexivity. Qed.

Lemma rstrip_idem (s : string) : PyStr.rstrip (PyStr.rstrip s) = PyStr.rstrip s.
Proof.
  induction s as [|a s IH]; simpl; [reflexivity|].
  destruct (PyStr.rstrip s) as [|b r] eqn:E.
  - destruct (PyStr.is_space a) eqn:Ea; simpl; [reflexivity|].
    rewrite Ea. reflexivity.
  - change (PyStr.rstrip (String a (String b r)))
      with (match PyStr.rstrip (String b r) with
            | EmptyString =>
                if PyStr.is_space a then EmptyString else String a EmptyString
            | String c r' => String a (String c r')
            end).
    rewrite IH. reflexivity.
Qed.

(** A text stripped on the left is empty or starts with a character that is
    not white space. *)
Lemma lstrip_head (s : string) :
  PyStr.lstrip s = EmptyString \/
  exists a t, PyStr.lstrip s = String a t /\ PyStr.is_space a = false.
Proof.
  induction s as [|a s IH]; simpl; [left; reflexivity|].
  destruct (PyStr.is_space a) eqn:Ea; [exact IH|].
  right. exists a, s. auto.
Qed.

Lemma strip_idem (s : string) : PyStr.strip (PyStr.strip s) = PyStr.strip s.
Proof.
  unfold PyStr.strip.
  assert (H : PyStr.lstrip (PyStr.rstrip (PyStr.lstrip s))
              = PyStr.rstrip (PyStr.lstrip s)).
  { destruct (lstrip_head s) as [->|(a & t & -> & Ha)]; [reflexivity|].
    simpl. destruct (PyStr.rstrip t); rewrite ?Ha; simpl; rewrite Ha;
      reflexivity. }
  rewrite H. apply rstrip_idem.
Qed.

(** X7.  Mode matching ignores letter case and surrounding white space, in
    the primary mode and in the candidate mode alike. *)
Theorem mode_score_ignores_case_and_padding (beta_mode cand_mode : string) :
  _mode_match_score (PyStr.lower beta_mode) (PyStr.lower cand_mode)
  = _mode_match_score beta_mode cand_mode /\
  _mode_match_score (PyStr.strip beta_mode) (PyStr.strip cand_mode)
  = _mode_match_score beta_mode cand_mode.
Proof.
  unfold _mode_match_score. split.
  - rewrite !strip_lower, !lower_idem. reflexivity.
  - rewrite !strip_idem. reflexivity.
Qed.

(** * Further properties of the normalisers *)

(** A label is renamed to a canonical name or left as it is. *)
Lemma candidate_label_cases (c : string) :
  In (candidate_label c)
     ["Z"; "A"; "logft"; "mode"; "br_pct"; "br"; "source"; "comment"] \/
  candidate_label c = c.
Proof.
  unfold candidate_label.
  repeat match goal with
         | |- context [if ?t then _ else _] => destruct t
         end;
    try (right; reflexivity); left; simpl; tauto.
Qed.

Lemma candidate_label_idem (c : string) :
  candidate_label (candidate_label c) = candidate_label c.
Proof.
  destruct (candidate_label_cases c) as [H|H].
  - simpl in H.
    repeat (destruct H as [H|H]; [rewrite <- H; reflexivity|]). contradiction.
  - rewrite H. exact H.
Qed.

Lemma override_label_cases (c : string) :
  In (override_label c) ["Z"; "A"; "logft"; "mode"; "source"; "note"] \/
  override_label c = c.
Proof.
  unfold override_label.
  repeat match goal with
         | |- context [if ?t then _ else _] => destruct t
         end;
    try (right; reflexivity); left; simpl; tauto.
Qed.

Lemma override_label_idem (c : string) :
  override_label (override_label c) = override_label c.
Proof.
  destruct (override_label_cases c) as [H|H].
  - simpl in H.
    repeat (destruct H as [H|H]; [rewrite <- H; reflexivity|]). contradiction.
  - rewrite H. exact H.
Qed.

Lemma rename_idem (f : string -> string) (df : DataFrame) :
  (forall c, f (f c) = f c) -> rename f (rename f df) = rename f df.
Proof.
  intros Hf. unfold rename. cbn [columns rows]. f_equal.
  - rewrite map_map. apply map_ext. exact Hf.
  - rewrite map_map. apply map_ext. intros r. rewrite map_map.
    apply map_ext. intros kv. cbn [fst snd]. rewrite Hf. reflexivity.
Qed.

Lemma empty_rename (f : string -> string) (df : DataFrame) :
  empty (rename f df) = empty df.
Proof.
  unfold empty, rename. cbn [columns rows].
  destruct (columns df), (rows df); reflexivity.
Qed.

(** X8.  The column renaming is idempotent, for candidates and for overrides:
    a frame whose columns already carry the canonical names normalises to
    the same result as the frame it was renamed from. *)
Theorem normalisers_accept_canonical_names :
  (forall c, candidate_label (candidate_label c) = candidate_label c) /\
  (forall c, override_label (override_label c) = override_label c) /\
  (forall df,
     _normalize_candidates (rename candidate_label df) = _normalize_candidates df) /\
  (forall path df,
     _normalize_overrides path (Some (rename override_label df))
     = _normalize_overrides path (Some df)).
Proof.
  split; [exact candidate_label_idem|].
  split; [exact override_label_idem|].
  split.
  - intros df. unfold _normalize_candidates.
    rewrite empty_rename, (rename_idem _ df candidate_label_idem). reflexivity.
  - intros path df. unfold _normalize_overrides.
    rewrite (rename_idem _ df override_label_idem). reflexivity.
Qed.

Lemma integral_trunc (x : Q) :
  is_integral x = true -> (inject_Z (trunc x) == x)%Q.
Proof.
  destruct x as [n d]. unfold is_integral, trunc, Qeq. cbn [Qnum Qden inject_Z].
  intros H. apply Z.eqb_eq in H.
  assert (Hd : Zpos d <> 0%Z) by discriminate.
  apply (Z.rem_mod_eq_0 n (Zpos d) Hd) in H.
  pose proof (Z.quot_rem' n (Zpos d)) as Hq. rewrite H in Hq. lia.
Qed.

Lemma guard_passed (b : bool) (e : Error) (u : unit) :
  guard b e = inr u -> b = true.
Proof. unfold guard. destruct b; [reflexivity|discriminate]. Qed.

Lemma numeric_int64_passed (col : string) (out : DataFrame) (u : unit)
    (r : Row) (x : Q) :
  numeric_int64 col out = inr u ->
  In r (rows out) -> to_numeric (get r col) = Some x -> is_integral x = true.
Proof.
  unfold numeric_int64. intros H Hin Hx. run_checks H.
  apply guard_passed in H. rewrite forallb_forall in H.
  specialize (H r Hin). rewrite Hx in H. exact H.
Qed.

Lemma Forall2_map_in (A B : Type) (P : A -> B -> Prop) (f : A -> B)
    (l : list A) :
  (forall x, In x l -> P x (f x)) -> Forall2 P l (map f l).
Proof.
  induction l as [|x l IH]; simpl; intros H; constructor; auto.
Qed.

(** X9.  Candidate normalisation keeps, in row order, exactly the rows whose
    Z, A and logft are numbers, and drops the others without an error; each
    candidate carries the numbers of its row, Z and A being the integers the
    row holds. *)
Theorem candidates_are_the_complete_rows (df : DataFrame)
    (cands : list Candidate) :
  empty df = false ->
  _normalize_candidates df = inr cands ->
  Forall2
    (fun r c =>
       exists z a l,
         to_numeric (get r "Z") = Some z /\
         to_numeric (get r "A") = Some a /\
         to_numeric (get r "logft") = Some l /\
         (inject_Z (c_Z c) == z)%Q /\ (inject_Z (c_A c) == a)%Q /\
         c_logft c = l)
    (filter complete (rows (rename candidate_label df))) cands.
Proof.
  intros He H. rewrite (normalize_candidates_rows _ He H).
  unfold _normalize_candidates in H. rewrite He in H. run_checks H.
  apply Forall2_map_in. intros r Hr. apply filter_In in Hr.
  destruct Hr as [Hin Hc]. unfold complete in Hc.
  destruct (to_numeric (get r "Z")) as [z|] eqn:Ez; [|discriminate].
  destruct (to_numeric (get r "A")) as [a|] eqn:Ea; [|discriminate].
  destruct (to_numeric (get r "logft")) as [l|] eqn:El; [|discriminate].
  exists z, a, l. cbn [candidate_of_row c_Z c_A c_logft].
  rewrite Ez, Ea, El. cbn [number].
  repeat split; try reflexivity; apply integral_trunc.
  - exact (@numeric_int64_passed _ _ _ r z E0 Hin Ez).
  - exact (@numeric_int64_passed _ _ _ r a E1 Hin Ea).
Qed.

(** X10.  A Z or A that is a number but not an integer, in any row of the
    candidate sources (kept or not by the later [dropna]), makes candidate
    normalisation raise inside pandas: the cast to "Int64" of lines 149-150
    does not truncate. *)
Theorem non_integer_key_aborts (df : DataFrame) (r : Row) (x : Q) :
  empty df = false ->
  has_column (rename candidate_label df) "Z" = true ->
  has_column (rename candidate_label df) "A" = true ->
  has_column (rename candidate_label df) "logft" = true ->
  In r (rows (rename candidate_label df)) ->
  to_numeric (get r "Z") = Some x \/ to_numeric (get r "A") = Some x ->
  is_integral x = false ->
  _normalize_candidates df = inl PandasError.
Proof.
  intros He HZ HA HL Hin Hx Hni.
  unfold _normalize_candidates. rewrite He. unfold require_columns.
  rewrite HZ, HA, HL. cbn [bind ret].
  assert (Hbad : forall col, to_numeric (get r col) = Some x ->
                   numeric_int64 col (rename candidate_label df)
                   = inl PandasError).
  { intros col Hc. unfold numeric_int64, guard.
    destruct (one_column _ col); [|reflexivity]. cbn [bind ret].
    destruct (forallb _ _) eqn:Ef; [|reflexivity].
    rewrite forallb_forall in Ef. specialize (Ef r Hin).
    rewrite Hc, Hni in Ef. discriminate. }
  destruct Hx as [Hx|Hx].
  - rewrite (Hbad "Z" Hx). reflexivity.
  - destruct (numeric_int64 "Z" _) as [e|u] eqn:EZ.
    + unfold numeric_int64, guard in EZ.
      destruct (one_column _ "Z"); [|injection EZ as <-; reflexivity].
      cbn [bind ret] in EZ.
      destruct (forallb _ _); [discriminate|injection EZ as <-; reflexivity].
    + cbn [bind]. rewrite (Hbad "A" Hx). reflexivity.
Qed.

(** Every row read from a file carries the path of the file under
    [__file__], whatever the file holds under that label. *)
Lemma tagged_row_file (f : CsvFile) (r : Row) :
  In r (rows (rename candidate_label (read_tagged f))) ->
  get r "__file__" = Val (fst f) None.
Proof.
  unfold rename, read_tagged, set_item. cbn [rows]. rewrite map_map.
  intros Hin. apply in_map_iff in Hin. destruct Hin as (r0 & <- & _).
  reflexivity.
Qed.

(** X11.  Every candidate of the index names, under [__file__], the path of
    one of the source files; without a source column its source is that
    path, and with one its source is empty only if the path is. *)
Theorem candidates_name_their_file (glob_files : list CsvFile)
    (cands : list Candidate) (c : Candidate) :
  empty (_read_csvs glob_files) = false ->
  _normalize_candidates (_read_csvs glob_files) = inr cands ->
  In c cands ->
  exists f,
    In f glob_files /\ c_file c = fst f /\
    (has_column (rename candidate_label (_read_csvs glob_files)) "source" = false ->
     c_source c = fst f) /\
    (c_source c = "" -> fst f = "").
Proof.
  intros He H Hc.
  destruct (index_in_path_order glob_files He H) as (files & Hp & _ & Hcs).
  rewrite Hcs in Hc. apply in_flat_map in Hc. destruct Hc as (f & Hf & Hc).
  unfold candidates_of_file in Hc. apply in_map_iff in Hc.
  destruct Hc as (r & <- & Hr). apply filter_In in Hr. destruct Hr as [Hr _].
  exists f. split; [exact (Permutation_in _ Hp Hf)|].
  cbn [candidate_of_row c_file c_source]. unfold source_of.
  rewrite (tagged_row_file f r Hr). cbn [astype_str].
  split; [reflexivity|]. split.
  - intros ->. reflexivity.
  - destruct (_ =? "")%string eqn:E; [auto|].
    intros H0. rewrite H0 in E. discriminate.
Qed.

(** X12.  An override row whose Z, A and logft are numbers takes effect for
    the nuclide its Z and A name once truncated to integers: resolution of
    that nuclide returns a value with method "override", whatever the
    candidates, the primary mode and the sort on logft are. *)
Theorem complete_override_row_takes_effect (path : string) (df : DataFrame)
    (ovs : list Override) (r : Row) (z a l : Q)
    (quicksort : list Candidate -> list Candidate) (beta_mode : string)
    (candidates : list Candidate) :
  _normalize_overrides path (Some df) = inr ovs ->
  In r (rows (rename override_label df)) ->
  to_numeric (get r "Z") = Some z ->
  to_numeric (get r "A") = Some a ->
  to_numeric (get r "logft") = Some l ->
  let res := choose_logft_for_row quicksort (trunc z) (trunc a) beta_mode
                                  candidates ovs in
  method (snd res) = "override" /\ exists v, fst res = Some v.
Proof.
  intros H Hin Hz Ha Hl res.
  unfold _normalize_overrides in H. run_checks H. injection H as <-.
  assert (Ho : In (override_of_row path (rename override_label df) r)
                  (filter (over_at (trunc z) (trunc a))
                     (map (override_of_row path (rename override_label df))
                        (filter complete (rows (rename override_label df)))))).
  { apply filter_In. split.
    - apply in_map, filter_In. split; [exact Hin|].
      unfold complete. rewrite Hz, Ha, Hl. reflexivity.
    - unfold over_at. cbn [override_of_row o_Z o_A]. rewrite Hz, Ha.
      cbn [number]. rewrite !Z.eqb_refl. reflexivity. }
  unfold res, choose_logft_for_row.
  destruct (filter (over_at (trunc z) (trunc a)) _) as [|o os];
    [contradiction|].
  simpl. split; [reflexivity | eexists; reflexivity].
Qed.

(** * The order of the source files *)

Lemma string_leb_trans (s1 : string) :
  forall s2 s3,
    String.leb s1 s2 = true -> String.leb s2 s3 = true ->
    String.leb s1 s3 = true.
Proof.
  unfold String.leb.
  induction s1 as [|a s1 IH]; intros [|b s2] [|c s3]; simpl;
    try reflexivity; try discriminate.
  unfold Ascii.compare.
  destruct (N.compare_spec (N_of_ascii a) (N_of_ascii b)) as [Eab|Eab|Eab];
    destruct (N.compare_spec (N_of_ascii b) (N_of_ascii c)) as [Ebc|Ebc|Ebc];
    destruct (N.compare_spec (N_of_ascii a) (N_of_ascii c)) as [Eac|Eac|Eac];
    try discriminate; try reflexivity; try lia.
  apply IH.
Qed.

Lemma by_path_sorted_unique (l1 : list CsvFile) :
  forall l2,
    Permutation l1 l2 ->
    NoDup (map fst l1) ->
    StronglySorted (fun f g => by_path f g = true) l1 ->
    StronglySorted (fun f g => by_path f g = true) l2 ->
    l1 = l2.
Proof.
  induction l1 as [|a t1 IH]; intros l2 Hp Hnd Hs1 Hs2.
  - apply Permutation_nil in Hp. auto.
  - destruct l2 as [|b t2];
      [apply Permutation_sym, Permutation_nil in Hp; discriminate|].
    assert (Hab : a = b).
    { assert (Ha : In a (b :: t2)) by (apply (Permutation_in _ Hp); left; auto).
      assert (Hb : In b (a :: t1))
        by (apply (Permutation_in _ (Permutation_sym Hp)); left; auto).
      destruct Ha as [Ha|Ha]; [auto|]. destruct Hb as [Hb|Hb]; [auto|].
      inversion Hs1 as [|? ? _ H1]; subst. inversion Hs2 as [|? ? _ H2]; subst.
      rewrite Forall_forall in H1, H2.
      specialize (H1 b Hb). specialize (H2 a Ha). unfold by_path in H1, H2.
      assert (Hfst : fst a = fst b) by (apply String.leb_antisym; assumption).
      inversion Hnd as [|? ? Hnin _]; subst.
      exfalso. apply Hnin. rewrite Hfst. apply in_map, Hb. }
    subst b. f_equal. apply IH.
    + exact (Permutation_cons_inv Hp).
    + inversion Hnd; assumption.
    + inversion Hs1; assumption.
    + inversion Hs2; assumption.
Qed.

Lemma sort_by_path_strongly_sorted (files : list CsvFile) :
  StronglySorted (fun f g => by_path f g = true) (sort_values by_path files).
Proof.
  apply Sorted_StronglySorted.
  - intros x y z. apply string_leb_trans.
  - apply sort_values_sorted, by_path_total.
Qed.

(** X13.  Which order the directory lists its files in does not matter: two
    listings of the same files, the paths being distinct, are read into the
    same frame. *)
Theorem read_csvs_ignores_listing_order (files1 files2 : list CsvFile) :
  NoDup (map fst files1) ->
  Permutation files1 files2 ->
  _read_csvs files1 = _read_csvs files2.
Proof.
  intros Hnd Hp.
  assert (Hs : sort_values by_path files1 = sort_values by_path files2).
  { apply by_path_sorted_unique.
    - apply Permutation_trans with files1; [apply sort_values_perm|].
      apply Permutation_trans with files2; [exact Hp|].
      apply Permutation_sym, sort_values_perm.
    - apply (Permutation_NoDup (l := map fst files1)); [|exact Hnd].
      apply Permutation_map, Permutation_sym, sort_values_perm.
    - apply sort_by_path_strongly_sorted.
    - apply sort_by_path_strongly_sorted. }
  unfold _read_csvs. rewrite Hs. reflexivity.
Qed.


(** * Further properties of the run *)

Section FurtherRun.

Variable quicksort : list Candidate -> list Candidate.

Lemma rowless_sources_empty (files : list CsvFile) :
  (forall f, In f files -> rows (snd f) = []) ->
  empty (_read_csvs files) = true.
Proof.
  intros Hall.
  assert (Hrows : rows (_read_csvs files) = []).
  { rewrite read_csvs_rows.
    destruct (flat_map (fun f => rows (read_tagged f))
                       (sort_values by_path files)) as [|r rs] eqn:E;
      [reflexivity|].
    assert (Hr : In r (flat_map (fun f => rows (read_tagged f))
                                (sort_values by_path files)))
      by (rewrite E; left; reflexivity).
    apply in_flat_map in Hr. destruct Hr as (f & Hf & Hr).
    apply sort_values_in in Hf. unfold read_tagged, set_item in Hr.
    cbn [rows] in Hr. rewrite (Hall f Hf) in Hr. contradiction. }
  unfold empty. rewrite Hrows. destruct (columns _); reflexivity.
Qed.

(** X14.  Source files that hold no row count as no source at all: with no
    overrides file the run returns 2 and writes nothing, and with one it
    goes on with no candidate, without looking at the columns of those
    files. *)
Theorem rowless_sources_count_as_none (args : Args) (t : BetaTable) :
  beta args = Some t ->
  missing_column required_columns t = None ->
  (forall f, In f (logft_dir args) -> rows (snd f) = []) ->
  (overrides_file args = None -> main quicksort args = stop (Return 2)) /\
  (forall df ovs,
     overrides_file args = Some df ->
     _normalize_overrides (overrides args) (Some df) = inr ovs ->
     main quicksort args
     = merge_and_write quicksort args (ensure_logft t) [] ovs).
Proof.
  intros Hb Hm Hall.
  assert (He := rowless_sources_empty _ Hall). split.
  - intros Ho. unfold main. rewrite Hb, Hm, He, Ho. reflexivity.
  - intros df ovs Ho Hn. unfold main, load_candidates.
    rewrite Hb, Hm, He, Ho, Hn. reflexivity.
Qed.

(** X15.  A beta table without rows: the table is written back (with its
    logft column), then sorting the audit, a frame without columns, raises
    [KeyError], and no audit file is written. *)
Theorem empty_table_writes_no_audit (args : Args) (t : BetaTable)
    (cands : list Candidate) (ovs : list Override) :
  beta args = Some t ->
  missing_column required_columns t = None ->
  beta_rows t = [] ->
  empty (_read_csvs (logft_dir args)) && negb (exists_file (overrides_file args))
  = false ->
  load_candidates (_read_csvs (logft_dir args)) = inr cands ->
  _normalize_overrides (overrides args) (overrides_file args) = inr ovs ->
  main quicksort args =
  {| outcome := Raised (KeyError "Z");
     beta_written := Some (ensure_logft t);
     audit_written := None |}.
Proof.
  intros Hb Hm Hr He Hc Ho.
  rewrite (main_runs quicksort args Hb Hm He Hc Ho).
  assert (Hrows : beta_rows (ensure_logft t) = []).
  { unfold ensure_logft. destruct (among "logft" (beta_columns t));
      cbn [beta_rows]; rewrite Hr; reflexivity. }
  unfold merge_and_write, run_loop. rewrite Hrows. simpl.
  destruct (ensure_logft t) as [cols rws]. cbn in Hrows |- *.
  rewrite Hrows. reflexivity.
Qed.

(** X16.  What a run leaves behind, by the way it ends: after a return of 0
    both files are written; after a return of 2 none is; after an exception
    no audit is written, and the table is written only when the exception is
    the [KeyError] of a table without rows; and an audit is never written
    without the table. *)
Theorem outputs_by_outcome (args : Args) :
  (outcome (main quicksort args) = Return 0 ->
   exists t audit,
     beta_written (main quicksort args) = Some t /\
     audit_written (main quicksort args) = Some audit) /\
  (outcome (main quicksort args) = Return 2 ->
   beta_written (main quicksort args) = None /\
   audit_written (main quicksort args) = None) /\
  (forall e,
     outcome (main quicksort args) = Raised e ->
     audit_written (main quicksort args) = None /\
     forall t, beta_written (main quicksort args) = Some t ->
               e = KeyError "Z" /\ beta_rows t = []) /\
  (forall audit,
     audit_written (main quicksort args) = Some audit ->
     exists t, beta_written (main quicksort args) = Some t).
Proof.
  destruct (main_cases quicksort args)
    as [(o & Hs & H3 & H0) | (b & c & o & _ & _ & _ & _ & Hm)].
  - rewrite Hs. simpl. repeat split; try discriminate; try congruence.
  - rewrite Hm, merge_and_write_outcome, merge_and_write_table,
      merge_and_write_audit.
    destruct (beta_rows (ensure_logft b)) as [|r rs] eqn:Er.
    + repeat split; try discriminate.
      * injection H as <-. reflexivity.
      * injection H0 as <-. reflexivity.
    + destruct (require_complete args && _);
        repeat split; try discriminate; eauto.
Qed.

End FurtherRun.

(** * Further properties of the merge *)

Section FurtherMerge.

Variable quicksort : list Candidate -> list Candidate.

(** X17.  After the loop a row has no logft exactly when it had none before
    and neither an override nor a candidate matches its (Z, A), forced run
    or not. *)
Theorem unresolved_iff_empty_and_unmatched
    (quicksort_perm : forall l, Permutation (quicksort l) l)
    (force : bool) (candidates : list Candidate) (overrides : list Override)
    (rows : list PrimaryRecord) (i : nat) (row : PrimaryRecord) :
  nth_error rows i = Some row ->
  exists row',
    nth_error (st_beta (run_loop quicksort force candidates overrides rows)) i
    = Some row' /\
    (p_logft row' = None <->
     p_logft row = None /\
     filter (over_at (p_Z row) (p_A row)) overrides = [] /\
     filter (cand_at (p_Z row) (p_A row)) candidates = []).
Proof.
  intros Hi.
  destruct (run_loop_rows quicksort force candidates overrides rows)
    as (Hbeta & _).
  rewrite Hbeta. exists (merged_row quicksort force candidates overrides row).
  split; [apply map_nth_error, Hi|].
  destruct (choose_absent_iff quicksort quicksort_perm (p_Z row) (p_A row)
              (PyStr.strip (p_mode row)) candidates overrides) as [Habs _].
  unfold merged_row.
  destruct (has_cur (p_logft row) && negb force) eqn:Ek.
  - apply andb_prop in Ek. destruct Ek as [Ek _].
    destruct (p_logft row); [|discriminate].
    split; [discriminate | intros [H _]; discriminate].
  - destruct (fst (choose_logft_for_row quicksort (p_Z row) (p_A row)
                     (PyStr.strip (p_mode row)) candidates overrides))
      as [v|] eqn:Ech.
    + cbn [with_logft p_logft]. split; [discriminate|].
      intros [_ H]. apply Habs in H. discriminate.
    + split.
      * intros H. split; [exact H | apply Habs; reflexivity].
      * intros [H _]. exact H.
Qed.

(** X18.  The loop keeps the rows of the table in number and order and
    changes nothing of a row but its logft: a row is left as it is, or its
    logft cell is set to a number; it appends one audit record per row, in
    row order, that carries the row's Z and A and its trimmed mode. *)
Theorem merge_touches_only_logft (force : bool) (candidates : list Candidate)
    (overrides : list Override) (rows : list PrimaryRecord) :
  let st := run_loop quicksort force candidates overrides rows in
  List.length (st_beta st) = List.length rows /\
  List.length (audit_rows st) = List.length rows /\
  forall i row,
    nth_error rows i = Some row ->
    exists row' a,
      nth_error (st_beta st) i = Some row' /\
      nth_error (audit_rows st) i = Some a /\
      (row' = row \/ exists v, row' = with_logft (Some v) row) /\
      a_Z a = p_Z row /\ a_A a = p_A row /\
      a_beta_mode a = PyStr.strip (p_mode row).
Proof.
  intros st.
  destruct (run_loop_rows quicksort force candidates overrides rows)
    as (Hbeta & Haudit & _).
  fold st in Hbeta, Haudit. rewrite Hbeta, Haudit, !length_map.
  split; [reflexivity|]. split; [reflexivity|].
  intros i row Hi.
  exists (merged_row quicksort force candidates overrides row),
         (audit_of_row quicksort force candidates overrides row).
  split; [apply map_nth_error, Hi|]. split; [apply map_nth_error, Hi|].
  split.
  - unfold merged_row.
    destruct (has_cur (p_logft row) && negb force); [left; reflexivity|].
    destruct (fst _) as [v|]; [right; exists v; reflexivity | left; reflexivity].
  - unfold audit_of_row.
    destruct (has_cur (p_logft row) && negb force); repeat split.
Qed.

(** X19.  The audit and the table agree on logft: the audit record of a row
    shows the logft the row has after the loop.  The one exception is a
    forced row that had a value and for which resolution found nothing: the
    table keeps the value and the audit shows a blank. *)
Theorem audit_logft_is_table_logft (force : bool)
    (candidates : list Candidate) (overrides : list Override)
    (rows : list PrimaryRecord) :
  let st := run_loop quicksort force candidates overrides rows in
  forall i row,
    nth_error rows i = Some row ->
    exists row' a,
      nth_error (st_beta st) i = Some row' /\
      nth_error (audit_rows st) i = Some a /\
      (force = false -> a_logft a = p_logft row') /\
      (a_logft a = p_logft row' \/
       (force = true /\ has_cur (p_logft row) = true /\
        a_logft a = None /\ a_method a = "missing" /\
        p_logft row' = p_logft row)).
Proof.
  intros st i row Hi.
  destruct (run_loop_rows quicksort force candidates overrides rows)
    as (Hbeta & Haudit & _).
  fold st in Hbeta, Haudit. rewrite Hbeta, Haudit.
  exists (merged_row quicksort force candidates overrides row),
         (audit_of_row quicksort force candidates overrides row).
  split; [apply map_nth_error, Hi|]. split; [apply map_nth_error, Hi|].
  destruct (filter (over_at (p_Z row) (p_A row)) overrides) as [|o os] eqn:Hov.
  2:{ assert (Hres : choose_logft_for_row quicksort (p_Z row) (p_A row)
                       (PyStr.strip (p_mode row)) candidates overrides
                     = (Some (o_logft o),
                        {| method := "override"; source := o_source o;
                           cand_mode := o_mode o; br_pct_used := None;
                           note := o_note o |})).
      { unfold choose_logft_for_row. rewrite Hov. reflexivity. }
      unfold merged_row, audit_of_row. rewrite Hres.
      destruct (has_cur (p_logft row) && negb force); simpl; auto. }
  unfold merged_row, audit_of_row.
  destruct (has_cur (p_logft row) && negb force) eqn:Ek; [simpl; auto|].
  destruct (choose_logft_for_row quicksort (p_Z row) (p_A row)
              (PyStr.strip (p_mode row)) candidates overrides)
    as [[v|] prov] eqn:Ech; cbn [fst snd audit_record a_logft a_method
                                  with_logft p_logft].
  - auto.
  - assert (Hmiss : method prov = "missing").
    { unfold choose_logft_for_row in Ech. rewrite Hov in Ech.
      destruct (filter (cand_at (p_Z row) (p_A row)) candidates);
        [injection Ech as <-; reflexivity|].
      destruct (existsb br_known _).
      - destruct (sort_values _ _); [injection Ech as <-; reflexivity|].
        discriminate.
      - destruct (quicksort _); [injection Ech as <-; reflexivity|].
        discriminate. }
    destruct (p_logft row) as [v0|] eqn:Ev.
    + simpl in Ek. destruct force; [|discriminate]. split; [discriminate|].
      right. repeat split; assumption.
    + split; auto.
Qed.

End FurtherMerge.

(** * The counters of the loop and the reruns *)

Section Counters.

Variable quicksort : list Candidate -> list Candidate.
Variable force : bool.
Variable candidates : list Candidate.
Variable overrides : list Override.

Let kept := fun r => has_cur (p_logft r) && negb force.
Let found := fun r =>
  negb (blank (fst (choose_logft_for_row quicksort (p_Z r) (p_A r)
                      (PyStr.strip (p_mode r)) candidates overrides))).

Lemma loop_counters (rows : list PrimaryRecord) :
  forall (n : nat) (st : LoopState),
    let st' := fold_left
                 (fun st ir => loop_body quicksort force candidates overrides
                                         st (fst ir) (snd ir))
                 (iterrows n rows) st in
    updated st' = (updated st
                   + List.length (filter (fun r => negb (kept r) && found r) rows))%nat /\
    skipped st' = (skipped st + List.length (filter kept rows))%nat /\
    missing st' = (missing st
                   + List.length (filter (fun r => negb (kept r) && negb (found r))
                                         rows))%nat.
Proof.
  induction rows as [|r rows IH]; intros n st; cbn zeta; simpl.
  - repeat split; lia.
  - destruct (IH (S n) (loop_body quicksort force candidates overrides st n r))
      as (I1 & I2 & I3).
    cbn zeta in I1, I2, I3. rewrite I1, I2, I3. unfold loop_body, kept, found.
    destruct (has_cur (p_logft r) && negb force); simpl;
      [repeat split; lia|].
    destruct (choose_logft_for_row quicksort (p_Z r) (p_A r)
                (PyStr.strip (p_mode r)) candidates overrides) as [[v|] prov];
      simpl; repeat split; lia.
Qed.

(** The method of a resolution is one of four. *)
Lemma choose_method_cases (Z A : Z) (beta_mode : string) :
  In (method (snd (choose_logft_for_row quicksort Z A beta_mode
                     candidates overrides)))
     ["override"; "missing"; "candidate_highest_br"; "candidate_min_logft"].
Proof.
  unfold choose_logft_for_row.
  destruct (filter (over_at Z A) overrides); [|simpl; auto].
  destruct (filter (cand_at Z A) candidates); [simpl; auto|].
  destruct (existsb br_known _).
  - destruct (sort_values _ _); simpl; auto.
  - destruct (quicksort _); simpl; auto.
Qed.

Lemma filter_map_length (A B : Type) (p : B -> bool) (f : A -> B) (l : list A) :
  List.length (filter p (map f l)) = List.length (filter (fun x => p (f x)) l).
Proof.
  induction l as [|x l IH]; simpl; [reflexivity|].
  destruct (p (f x)); simpl; rewrite IH; reflexivity.
Qed.

Lemma audit_of_row_kind (r : PrimaryRecord) :
  let a := audit_of_row quicksort force candidates overrides r in
  (a_method a =? "kept_existing")%string = kept r /\
  blank (a_logft a) = negb (kept r) && negb (found r).
Proof.
  unfold audit_of_row, kept, found.
  destruct (has_cur (p_logft r) && negb force) eqn:Ek.
  - cbn [audit_record a_method a_logft method kept_existing].
    split; [reflexivity|].
    apply andb_prop in Ek. destruct Ek as [Ek _].
    destruct (p_logft r); [reflexivity|discriminate].
  - cbn [audit_record a_method a_logft]. split.
    + pose proof (choose_method_cases (p_Z r) (p_A r) (PyStr.strip (p_mode r)))
        as H.
      simpl in H.
      repeat (destruct H as [H|H]; [rewrite <- H; reflexivity|]).
      contradiction.
    + rewrite negb_involutive. reflexivity.
Qed.

(** X20.  The three counters the run prints account for every row once:
    [kept_existing] counts the audit records of that method, [missing] those
    with a blank logft, and [updated] the others, those resolution gave a
    value to; together they count the rows of the table. *)
Theorem counters_account_for_every_row (rows : list PrimaryRecord) :
  let st := run_loop quicksort force candidates overrides rows in
  (updated st + skipped st + missing st)%nat = List.length rows /\
  skipped st =
  List.length (filter (fun a => (a_method a =? "kept_existing")%string)
                      (audit_rows st)) /\
  missing st =
  List.length (filter (fun a => blank (a_logft a)) (audit_rows st)) /\
  updated st =
  List.length (filter (fun a => negb (a_method a =? "kept_existing")%string
                                && negb (blank (a_logft a)))
                      (audit_rows st)).
Proof.
  intros st.
  destruct (run_loop_rows quicksort force candidates overrides rows)
    as (_ & Haudit & Hskip & Hsum).
  fold st in Haudit, Hskip, Hsum.
  destruct (loop_counters rows 0
              {| st_beta := rows; audit_rows := []; updated := 0;
                 skipped := 0; missing := 0 |}) as (Hu & Hs & Hm).
  change (fold_left _ (iterrows 0 rows) _) with st in Hu, Hs, Hm.
  cbn [updated skipped missing] in Hu, Hs, Hm.
  rewrite Haudit, !filter_map_length.
  assert (Hlen : (List.length (filter kept rows)
                  + List.length (filter (fun r => negb (kept r)) rows))%nat
                 = List.length rows).
  { clear. induction rows as [|r rows IH]; simpl; [reflexivity|].
    destruct (kept r); simpl; lia. }
  assert (Hskip' : skipped st = List.length (filter kept rows)) by exact Hskip.
  assert (Hsum' : (updated st + missing st)%nat
                  = List.length (filter (fun r => negb (kept r)) rows))
    by exact Hsum.
  split; [lia|].
  split; [|split].
  - rewrite Hs. simpl. f_equal. apply filter_ext. intros r.
    symmetry. apply (audit_of_row_kind r).
  - rewrite Hm. simpl. f_equal. apply filter_ext. intros r.
    symmetry. apply (audit_of_row_kind r).
  - rewrite Hu. simpl. f_equal. apply filter_ext. intros r.
    destruct (audit_of_row_kind r) as [-> ->].
    destruct (kept r), (found r); reflexivity.
Qed.

End Counters.

Section Reruns.

Variable quicksort : list Candidate -> list Candidate.

(** After a forced merge, a further merge, forced or not, changes nothing. *)
Lemma merged_after_forced (f : bool) (cands : list Candidate)
    (ovs : list Override) (r : PrimaryRecord) :
  merged_row quicksort f cands ovs (merged_row quicksort true cands ovs r) =
  merged_row quicksort true cands ovs r.
Proof.
  unfold merged_row. rewrite andb_false_r.
  destruct (fst (choose_logft_for_row quicksort (p_Z r) (p_A r)
                   (PyStr.strip (p_mode r)) cands ovs)) as [v|] eqn:Ech.
  - cbn [with_logft p_Z p_A p_mode p_logft]. rewrite Ech.
    destruct (has_cur (Some v) && negb f); reflexivity.
  - rewrite Ech. destruct (has_cur (p_logft r) && negb f); reflexivity.
Qed.

(** X21.  The table a forced run writes is final: a further run on it with
    the same sources, forced or not, writes the same table. *)
Theorem forced_run_is_final (args : Args) (t : BetaTable) (f : bool) :
  force args = true ->
  beta_written (main quicksort args) = Some t ->
  beta_written (main quicksort (rerun args t f)) = Some t.
Proof.
  intros Hforce Hw.
  destruct (main_written quicksort args Hw)
    as (beta0 & cands & ovs & Hb & Hm & He & Hc & Ho & Hmain).
  rewrite Hmain, merge_and_write_table, Hforce in Hw. injection Hw as Ht.
  destruct (ensure_logft_columns beta0) as [Hlogft Hcols].
  rewrite (main_runs quicksort (rerun args t f) (beta0 := t) (cands := cands)
                     (ovs := ovs)); try assumption; try reflexivity.
  - rewrite merge_and_write_table. cbn [force rerun].
    rewrite ensure_logft_done by (subst t; exact Hlogft).
    f_equal. subst t. cbn [beta_columns beta_rows]. f_equal.
    rewrite map_map. apply map_ext. intros r. apply merged_after_forced.
  - apply missing_column_mono with beta0; [|exact Hm].
    intros c Hin. subst t. apply Hcols, Hin.
Qed.

End Reruns.

(** * Further properties of the merge and of the exit code *)

Section Completeness.

Variable quicksort : list Candidate -> list Candidate.

Hypothesis quicksort_perm : forall l, Permutation (quicksort l) l.

(** After the merge the logft cell of a row is NaN exactly when it was NaN
    and nothing matches the row's key. *)
Lemma merged_row_isna_iff (force : bool) (candidates : list Candidate)
    (overrides : list Override) (row : PrimaryRecord) :
  isna (merged_row quicksort force candidates overrides row) = true <->
  isna row = true /\
  filter (over_at (p_Z row) (p_A row)) overrides = [] /\
  filter (cand_at (p_Z row) (p_A row)) candidates = [].
Proof.
  destruct (choose_absent_iff quicksort quicksort_perm (p_Z row) (p_A row)
              (PyStr.strip (p_mode row)) candidates overrides) as [Habs _].
  unfold merged_row.
  destruct (has_cur (p_logft row) && negb force) eqn:Ek.
  - apply andb_prop in Ek. destruct Ek as [Ek _].
    unfold isna. destruct (p_logft row); [|discriminate].
    split; [discriminate | intros [H _]; discriminate].
  - destruct (fst (choose_logft_for_row quicksort (p_Z row) (p_A row)
                     (PyStr.strip (p_mode row)) candidates overrides))
      as [v|] eqn:Ech.
    + unfold isna at 1. cbn [with_logft p_logft]. split; [discriminate|].
      intros [_ H]. apply Habs in H. discriminate.
    + split.
      * intros H. split; [exact H | apply Habs; reflexivity].
      * intros [H _]. exact H.
Qed.

(** X22.  Completeness gating, read on the inputs: with require_complete
    set, a run over a table that has rows returns 3 exactly when the logft
    cell of some row is NaN and no record, override or candidate, matches the
    row's (Z, A); it returns 0 otherwise.  A row whose cell holds white space
    does not count, matched or not. *)
Theorem require_complete_fails_iff_unmatched_row (args : Args) (t : BetaTable)
    (cands : list Candidate) (ovs : list Override) :
  beta args = Some t ->
  missing_column required_columns t = None ->
  beta_rows t <> [] ->
  empty (_read_csvs (logft_dir args)) && negb (exists_file (overrides_file args))
  = false ->
  load_candidates (_read_csvs (logft_dir args)) = inr cands ->
  _normalize_overrides (overrides args) (overrides_file args) = inr ovs ->
  require_complete args = true ->
  (outcome (main quicksort args) = Return 3 <->
   exists row,
     In row (beta_rows (ensure_logft t)) /\ isna row = true /\
     filter (over_at (p_Z row) (p_A row)) ovs = [] /\
     filter (cand_at (p_Z row) (p_A row)) cands = []) /\
  (outcome (main quicksort args) = Return 3 \/
   outcome (main quicksort args) = Return 0).
Proof.
  intros Hb Hm Hne He Hc Ho Hrc.
  rewrite (main_runs quicksort args Hb Hm He Hc Ho), merge_and_write_outcome.
  assert (Hrows : beta_rows (ensure_logft t) <> []).
  { unfold ensure_logft. destruct (among "logft" (beta_columns t));
      [exact Hne|]. cbn [beta_rows]. destruct (beta_rows t);
      [congruence | discriminate]. }
  destruct (beta_rows (ensure_logft t)) as [|r0 rs] eqn:Er; [congruence|].
  rewrite Hrc, still_missing_existsb. cbn [andb].
  destruct (existsb _ _) eqn:Ex.
  - split; [|left; reflexivity]. split; [intros _|reflexivity].
    apply existsb_exists in Ex. destruct Ex as (m & Hin & Hnan).
    apply in_map_iff in Hin. destruct Hin as (row & Hrow & Hin).
    subst m. exists row. split; [exact Hin|].
    apply (merged_row_isna_iff (force args) cands ovs row). exact Hnan.
  - split; [|right; reflexivity]. split; [discriminate|].
    intros (row & Hin & Hrow). exfalso.
    apply (merged_row_isna_iff (force args) cands ovs row) in Hrow.
    assert (Hex : existsb isna
                    (map (merged_row quicksort (force args) cands ovs)
                         (r0 :: rs)) = true).
    { apply existsb_exists.
      exists (merged_row quicksort (force args) cands ovs row).
      split; [apply in_map, Hin | exact Hrow]. }
    rewrite Hex in Ex. discriminate.
Qed.

End Completeness.

Section Overwrite.

Variable quicksort : list Candidate -> list Candidate.

(** X23.  A value resolution returns is written to the row whenever the run
    is forced or the row had no logft, replacing what the row held. *)
Theorem resolved_value_is_written (force : bool) (candidates : list Candidate)
    (overrides : list Override) (rows : list PrimaryRecord) (i : nat)
    (row : PrimaryRecord) (v : Q) :
  nth_error rows i = Some row ->
  force = true \/ p_logft row = None ->
  fst (choose_logft_for_row quicksort (p_Z row) (p_A row)
         (PyStr.strip (p_mode row)) candidates overrides) = Some v ->
  nth_error (st_beta (run_loop quicksort force candidates overrides rows)) i
  = Some (with_logft (Some v) row).
Proof.
  intros Hi Hwhen Hv.
  destruct (run_loop_rows quicksort force candidates overrides rows)
    as (Hbeta & _).
  rewrite Hbeta, (map_nth_error _ _ _ Hi). unfold merged_row. rewrite Hv.
  destruct Hwhen as [Hf|Hn]; [rewrite Hf, andb_false_r | rewrite Hn];
    reflexivity.
Qed.

End Overwrite.

(** * Further properties of the schema checks *)

Lemma require_columns_error (cols : list string) (df : DataFrame) (e : Error) :
  require_columns cols df = inl e ->
  exists c, In c cols /\ has_column df c = false /\ e = RuntimeError c.
Proof.
  induction cols as [|c cols IH]; simpl; [discriminate|].
  destruct (has_column df c) eqn:Ec.
  - intros H. destruct (IH H) as (c' & Hin & Hno & He). exists c'. auto.
  - intros H. injection H as <-. exists c. auto.
Qed.

Lemma count_occ_two_labels (f : string -> string) (l : list string)
    (c1 c2 k : string) :
  In c1 l -> In c2 l -> c1 <> c2 -> f c1 = k -> f c2 = k ->
  (2 <= count_occ string_dec (map f l) k)%nat.
Proof.
  intros H1 H2 Hne E1 E2.
  assert (Hone : forall c l', In c l' -> f c = k ->
                              (1 <= count_occ string_dec (map f l') k)%nat).
  { intros c l' Hin Ec.
    apply (count_occ_In string_dec). rewrite <- Ec. apply in_map, Hin. }
  induction l as [|x l IH]; [contradiction|].
  cbn [map count_occ].
  destruct H1 as [H1|H1], H2 as [H2|H2].
  - congruence.
  - subst x. destruct (string_dec (f c1) k); [|contradiction].
    specialize (Hone c2 l H2 E2). lia.
  - subst x. destruct (string_dec (f c2) k); [|contradiction].
    specialize (Hone c1 l H1 E1). lia.
  - specialize (IH H1 H2). destruct (string_dec (f x) k); lia.
Qed.

(** The errors of candidate normalisation, with what the frame looked like. *)
Lemma normalize_candidates_error (df : DataFrame) (e : Error) :
  _normalize_candidates df = inl e ->
  (exists c, In c ["Z"; "A"; "logft"] /\ e = RuntimeError c) \/
  e = PandasError \/
  (e = KeyError "__file__" /\
   has_column (rename candidate_label df) "__file__" = false /\
   forall k, In k ["Z"; "A"; "logft"; "mode"; "br_pct"; "br"; "source"] ->
             one_column (rename candidate_label df) k = true).
Proof.
  unfold _normalize_candidates. destruct (empty df); [discriminate|].
  cbv zeta. set (out := rename candidate_label df).
  destruct (require_columns _ out) as [e0|[]] eqn:Er.
  - intros H. injection H as <-.
    destruct (require_columns_error _ _ Er) as (c & Hin & _ & ->).
    left. exists c. auto.
  - unfold numeric_int64, guard, bind, ret, raise.
    destruct (one_column out "Z") eqn:EZ;
      [|intros H; injection H as <-; auto].
    destruct (forallb _ (rows out));
      [|intros H; injection H as <-; auto].
    destruct (one_column out "A") eqn:EA;
      [|intros H; injection H as <-; auto].
    destruct (forallb _ (rows out));
      [|intros H; injection H as <-; auto].
    destruct (one_column out "logft") eqn:El;
      [|intros H; injection H as <-; auto].
    destruct (one_column out "mode") eqn:Em;
      [|intros H; injection H as <-; auto].
    destruct (one_column out "br_pct") eqn:Ep;
      [|intros H; injection H as <-; auto].
    destruct (one_column out "br") eqn:Eb;
      [|intros H; injection H as <-; auto].
    destruct (one_column out "source") eqn:Es;
      [|intros H; injection H as <-; auto].
    destruct (has_column out "__file__") eqn:Ef; [discriminate|].
    intros H. injection H as <-. right. right.
    split; [reflexivity|]. split; [reflexivity|].
    intros k Hk. simpl in Hk.
    repeat (destruct Hk as [<-|Hk]; [assumption|]). contradiction.
Qed.

Lemma normalize_candidates_columns (df : DataFrame) (cands : list Candidate) :
  empty df = false ->
  _normalize_candidates df = inr cands ->
  forall k, In k ["Z"; "A"; "logft"; "mode"; "br_pct"; "br"; "source"] ->
            one_column (rename candidate_label df) k = true.
Proof.
  unfold _normalize_candidates. intros ->.
  cbv zeta. set (out := rename candidate_label df).
  destruct (require_columns _ out) as [e0|[]]; [discriminate|].
  unfold numeric_int64, guard, bind, ret, raise.
  destruct (one_column out "Z") eqn:EZ; [|discriminate].
  destruct (forallb _ (rows out)); [|discriminate].
  destruct (one_column out "A") eqn:EA; [|discriminate].
  destruct (forallb _ (rows out)); [|discriminate].
  destruct (one_column out "logft") eqn:El; [|discriminate].
  destruct (one_column out "mode") eqn:Em; [|discriminate].
  destruct (one_column out "br_pct") eqn:Ep; [|discriminate].
  destruct (one_column out "br") eqn:Eb; [|discriminate].
  destruct (one_column out "source") eqn:Es; [|discriminate].
  intros _ k Hk. simpl in Hk.
  repeat (destruct Hk as [<-|Hk]; [assumption|]). contradiction.
Qed.

(** X24.  Two different headers of the candidate frame that are renamed to
    the same one of Z, A, logft, mode, br_pct, br and source (say "Z" in one
    file and "z" in another) abort the normalisation: it raises inside
    pandas, unless one of Z, A, logft is missing altogether, which is
    reported first. *)
Theorem colliding_headers_abort (df : DataFrame) (c1 c2 k : string) :
  empty df = false ->
  In c1 (columns df) -> In c2 (columns df) -> c1 <> c2 ->
  candidate_label c1 = k -> candidate_label c2 = k ->
  In k ["Z"; "A"; "logft"; "mode"; "br_pct"; "br"; "source"] ->
  _normalize_candidates df = inl PandasError \/
  exists c, In c ["Z"; "A"; "logft"] /\
            has_column (rename candidate_label df) c = false /\
            _normalize_candidates df = inl (RuntimeError c).
Proof.
  intros He H1 H2 Hne E1 E2 Hk.
  assert (Htwo : one_column (rename candidate_label df) k = false).
  { unfold one_column, rename. cbn [columns].
    apply Nat.leb_gt.
    apply (count_occ_two_labels candidate_label (columns df) H1 H2 Hne E1 E2). }
  destruct (_normalize_candidates df) as [e|cands] eqn:En.
  - destruct (normalize_candidates_error df En)
      as [(c & Hin & ->) | [-> | (_ & _ & Hall)]].
    + right. exists c. split; [exact Hin|]. split; [|reflexivity].
      unfold _normalize_candidates in En. rewrite He in En. cbv zeta in En.
      destruct (require_columns _ (rename candidate_label df)) as [e0|[]] eqn:Er.
      * destruct (require_columns_error _ _ Er) as (c' & _ & Hno & ->).
        injection En as <-. exact Hno.
      * exfalso. revert En. unfold numeric_int64, guard, bind, ret, raise.
        repeat match goal with
               | |- context [if ?b then _ else _] => destruct b
               end; discriminate.
    + left. reflexivity.
    + rewrite (Hall k Hk) in Htwo. discriminate.
  - rewrite (@normalize_candidates_columns df cands He En k Hk) in Htwo.
    discriminate.
Qed.

Lemma union_labels_complete (ls : list string) (c : string) :
  In c ls -> In c (union_labels ls).
Proof.
  unfold union_labels.
  assert (H : forall acc,
             In c acc \/ In c ls ->
             In c (fold_left
                     (fun acc c0 => if existsb (String.eqb c0) acc then acc
                                    else acc ++ [c0]) ls acc)).
  { induction ls as [|x ls IH]; simpl; intros acc [Ha|Hl];
      try assumption; try contradiction.
    - apply IH. left.
      destruct (existsb (String.eqb x) acc); [exact Ha|].
      apply in_or_app. left. exact Ha.
    - destruct Hl as [->|Hl]; [|apply IH; right; exact Hl].
      apply IH. left.
      destruct (existsb (String.eqb c) acc) eqn:Ex.
      + apply existsb_exists in Ex. destruct Ex as (y & Hy & Ey).
        apply String.eqb_eq in Ey. subst y. exact Hy.
      + apply in_or_app. right. left. reflexivity. }
  intros Hin. apply H. right. exact Hin.
Qed.

Lemma read_tagged_has_file (f : CsvFile) : In "__file__" (columns (read_tagged f)).
Proof.
  unfold read_tagged, set_item. cbn [columns].
  destruct (has_column (snd f) "__file__") eqn:Eh.
  - unfold has_column in Eh. apply existsb_exists in Eh.
    destruct Eh as (y & Hy & Ey). apply String.eqb_eq in Ey. subst y. exact Hy.
  - apply in_or_app. right. left. reflexivity.
Qed.

(** The frame [_read_csvs] returns has the column [__file__] as soon as one
    file was read, and the renaming keeps it. *)
Lemma read_csvs_has_file (glob_files : list CsvFile) :
  empty (_read_csvs glob_files) = false ->
  has_column (rename candidate_label (_read_csvs glob_files)) "__file__" = true.
Proof.
  unfold _read_csvs.
  destruct (sort_values by_path glob_files) as [|f0 fs]; [discriminate|].
  intros _. unfold has_column, rename, concat. cbn [columns].
  apply existsb_exists. exists "__file__". split; [|reflexivity].
  change "__file__" with (candidate_label "__file__") at 1.
  apply in_map, union_labels_complete, in_flat_map.
  exists (read_tagged f0). split; [left; reflexivity|].
  apply read_tagged_has_file.
Qed.

Lemma normalize_overrides_error (path : string) (file : option DataFrame)
    (e : Error) :
  _normalize_overrides path file = inl e ->
  (exists c, In c ["Z"; "A"; "logft"] /\ e = RuntimeError c) \/ e = PandasError.
Proof.
  unfold _normalize_overrides. destruct file as [df0|]; [|discriminate].
  cbv zeta. set (df := rename override_label df0).
  destruct (require_columns _ df) as [e0|[]] eqn:Er.
  - intros H. injection H as <-.
    destruct (require_columns_error _ _ Er) as (c & Hin & _ & ->).
    left. exists c. auto.
  - unfold guard, bind, ret, raise.
    repeat match goal with
           | |- context [if ?b then _ else _] => destruct b
           end;
      intros H; try discriminate; injection H as <-; right; reflexivity.
Qed.

(** X25.  Loading the inputs can fail in two ways only, the files being
    readable: with the [RuntimeError] that names the one of Z, A, logft the
    frame lacks, or with an exception raised inside pandas.  This holds of
    the candidates, read by [_read_csvs] and normalised, and of the
    overrides.  The [KeyError] on [__file__] of line 179 never comes about in
    a run: every frame [_read_csvs] returns carries that column. *)
Theorem loading_fails_on_schema_or_in_pandas (glob_files : list CsvFile)
    (path : string) (file : option DataFrame) (e : Error) :
  load_candidates (_read_csvs glob_files) = inl e \/
  _normalize_overrides path file = inl e ->
  (exists c, In c ["Z"; "A"; "logft"] /\ e = RuntimeError c) \/
  e = PandasError.
Proof.
  intros [Hc|Ho].
  - unfold load_candidates in Hc.
    destruct (empty (_read_csvs glob_files)) eqn:Ee; [discriminate|].
    cbn [negb] in Hc.
    destruct (normalize_candidates_error _ Hc)
      as [Hcol | [Hp | (_ & Hno & _)]]; [left; exact Hcol | right; exact Hp|].
    rewrite (read_csvs_has_file _ Ee) in Hno. discriminate.
  - exact (normalize_overrides_error _ _ Ho).
Qed.

Section Endings.

Variable quicksort : list Candidate -> list Candidate.

(** X26.  The run returns 2 in two situations and in no other: the beta
    table file does not exist; or it exists with its required columns, the
    candidate files hold no row (or there is none) and there is no overrides
    file. *)
Theorem returns_2_iff (args : Args) :
  outcome (main quicksort args) = Return 2 <->
  beta args = None \/
  exists t, beta args = Some t /\
            missing_column required_columns t = None /\
            empty (_read_csvs (logft_dir args)) = true /\
            overrides_file args = None.
Proof.
  split.
  - destruct (main_cases quicksort args)
      as [(o & Hs & H3 & H0) | (b & c & o & _ & _ & _ & _ & Hm)].
    + revert Hs. unfold main.
      destruct (beta args) as [beta0|]; [|intros _ _; left; reflexivity].
      destruct (missing_column required_columns beta0) eqn:Em.
      { intros _ H. discriminate. }
      cbv zeta.
      destruct (empty (_read_csvs (logft_dir args))) eqn:Ee.
      * destruct (overrides_file args) as [df|] eqn:Eov.
        -- cbn [exists_file negb andb]. unfold load_candidates. rewrite Ee.
           cbn [negb ret].
           destruct (_normalize_overrides _ _).
           ++ intros _ H. discriminate.
           ++ intros _. rewrite merge_and_write_outcome.
              destruct (beta_rows (ensure_logft beta0));
                [discriminate|].
              destruct (require_complete args && _); discriminate.
        -- intros _ _. right. exists beta0. auto.
      * cbn [andb]. unfold load_candidates. rewrite Ee. cbn [negb].
        destruct (_normalize_candidates _); [intros _ H; discriminate|].
        destruct (_normalize_overrides _ _); [intros _ H; discriminate|].
        intros _. rewrite merge_and_write_outcome.
        destruct (beta_rows (ensure_logft beta0)); [discriminate|].
        destruct (require_complete args && _); discriminate.
    + rewrite Hm, merge_and_write_outcome.
      destruct (beta_rows (ensure_logft b)); [discriminate|].
      destruct (require_complete args && _); discriminate.
  - unfold main. intros [->|(t & -> & -> & -> & ->)]; reflexivity.
Qed.

End Endings.

(** * The further properties on the example run *)

Lemma absent_iff_no_match_witness :
  fst (choose_logft_for_row sort_keeping_ties 20 45 "nan"
         [ex_cand_80; ex_cand_20] [ex_override]) = None.
Proof.
  pose proof (@absent_iff_no_match sort_keeping_ties
                (fun l => proj1 (sort_keeping_ties_sorts l))
                20%Z 45%Z "nan" [ex_cand_80; ex_cand_20] [ex_override]) as H.
  cbv zeta in H. destruct H as [[_ H] _]. apply H. split; reflexivity.
Defined.

Lemma resolved_value_from_matching_record_witness :
  exists c,
    In c [ex_cand_other; ex_cand_80; ex_cand_20] /\
    cand_at 19 44 c = true /\ (5.3 = c_logft c)%Q.
Proof.
  pose proof (@resolved_value_from_matching_record sort_keeping_ties
                (fun l => proj1 (sort_keeping_ties_sorts l))
                19%Z 44%Z "beta-" [ex_cand_other; ex_cand_80; ex_cand_20] []
                5.3%Q) as H.
  cbv zeta in H.
  destruct H as [(o & [] & _) | (_ & c & Hin & Hat & Hv & _)].
  - reflexivity.
  - exists c. auto.
Defined.

Lemma best_mode_score_wins_witness :
  exists w,
    In w [ex_cand_20; ex_cand_beta_5] /\
    (7.2 = c_logft w)%Q /\
    (mode_score "beta-" ex_cand_20 <= mode_score "beta-" w)%Z.
Proof.
  pose proof (@best_mode_score_wins sort_keeping_ties
                (fun l => proj1 (sort_keeping_ties_sorts l))
                19%Z 44%Z "beta-" [ex_cand_20; ex_cand_beta_5] []
                7.2%Q) as H.
  cbv zeta in H.
  destruct H as (w & Hin & _ & Hv & _ & _ & Hbest).
  - reflexivity.
  - reflexivity.
  - exists w. split; [exact Hin|]. split; [exact Hv|].
    apply Hbest; [left; reflexivity | reflexivity].
Defined.

Lemma candidates_are_the_complete_rows_witness :
  exists cands,
    _normalize_candidates (_read_csvs [ex_source_b; ex_source_a]) = inr cands /\
    List.length cands = 2%nat.
Proof.
  destruct (_normalize_candidates (_read_csvs [ex_source_b; ex_source_a]))
    as [e|cands] eqn:En; [vm_compute in En; discriminate|].
  exists cands. split; [reflexivity|].
  rewrite <- (Forall2_length
                (@candidates_are_the_complete_rows
                   (_read_csvs [ex_source_b; ex_source_a]) cands eq_refl En)).
  reflexivity.
Defined.

Lemma non_integer_key_aborts_witness :
  _normalize_candidates ex_frame_fractional = inl PandasError.
Proof.
  apply (@non_integer_key_aborts ex_frame_fractional
           [("Z", num "19.5" 19.5); ("A", num "44" 44); ("logft", num "5.3" 5.3)]
           19.5%Q).
  - reflexivity.
  - reflexivity.
  - reflexivity.
  - reflexivity.
  - left. reflexivity.
  - left. reflexivity.
  - reflexivity.
Defined.

Lemma candidates_name_their_file_witness :
  exists cands,
    _normalize_candidates (_read_csvs [ex_source_b; ex_source_a]) = inr cands /\
    forall c, In c cands ->
              exists f, In f [ex_source_b; ex_source_a] /\ c_file c = fst f.
Proof.
  destruct (_normalize_candidates (_read_csvs [ex_source_b; ex_source_a]))
    as [e|cands] eqn:En; [vm_compute in En; discriminate|].
  exists cands. split; [reflexivity|]. intros c Hc.
  destruct (@candidates_name_their_file [ex_source_b; ex_source_a] cands c
              eq_refl En Hc)
    as (f & Hf & Hfile & _).
  exists f. split; assumption.
Defined.

Lemma complete_override_row_takes_effect_witness :
  exists ovs,
    _normalize_overrides "data/aux/logft_overrides.csv" (Some ex_overrides_frame)
    = inr ovs /\
    method (snd (choose_logft_for_row sort_keeping_ties (trunc 19) (trunc 44)
                   "beta-" [ex_cand_80] ovs)) = "override".
Proof.
  destruct (_normalize_overrides "data/aux/logft_overrides.csv"
              (Some ex_overrides_frame)) as [e|ovs] eqn:En;
    [vm_compute in En; discriminate|].
  exists ovs. split; [reflexivity|].
  pose proof (@complete_override_row_takes_effect
                "data/aux/logft_overrides.csv" ex_overrides_frame ovs
                [("Z", num "19" 19); ("A", num "44" 44); ("logft", num "4.7" 4.7);
                 ("source", Val "curated" None)]
                19%Q 44%Q 4.7%Q sort_keeping_ties "beta-" [ex_cand_80] En) as H.
  cbv zeta in H. apply H.
  - left. reflexivity.
  - reflexivity.
  - reflexivity.
  - reflexivity.
Defined.

Lemma read_csvs_ignores_listing_order_witness :
  _read_csvs [ex_source_b; ex_source_a] = _read_csvs [ex_source_a; ex_source_b].
Proof.
  apply (@read_csvs_ignores_listing_order [ex_source_b; ex_source_a]
           [ex_source_a; ex_source_b]).
  - constructor.
    + intros [H|[]]. discriminate.
    + constructor; [intros [] | constructor].
  - apply perm_swap.
Defined.

Lemma rowless_sources_count_as_none_witness :
  main sort_keeping_ties ex_args_rowless = stop (Return 2).
Proof.
  apply (proj1 (@rowless_sources_count_as_none sort_keeping_ties ex_args_rowless
                  ex_beta eq_refl eq_refl
                  (fun f Hf => match Hf with
                               | or_introl E => f_equal (fun g => rows (snd g)) (eq_sym E)
                               | or_intror F => match F with end
                               end))).
  reflexivity.
Defined.

Lemma empty_table_writes_no_audit_witness :
  main sort_keeping_ties ex_args_empty_table =
  {| outcome := Raised (KeyError "Z");
     beta_written := Some (ensure_logft ex_beta_empty);
     audit_written := None |}.
Proof.
  eapply (@empty_table_writes_no_audit sort_keeping_ties ex_args_empty_table
            ex_beta_empty).
  - reflexivity.
  - reflexivity.
  - reflexivity.
  - reflexivity.
  - vm_compute. reflexivity.
  - reflexivity.
Defined.

Lemma unresolved_iff_empty_and_unmatched_witness :
  exists row',
    nth_error (st_beta (run_loop sort_keeping_ties false [ex_cand_80] []
                          [ex_row_20_45; ex_row_19_44])) 0
    = Some row' /\
    p_logft row' = None.
Proof.
  destruct (@unresolved_iff_empty_and_unmatched sort_keeping_ties
              (fun l => proj1 (sort_keeping_ties_sorts l))
              false [ex_cand_80] [] [ex_row_20_45; ex_row_19_44]
              0%nat ex_row_20_45 eq_refl)
    as (row' & Hrow & Hiff).
  exists row'. split; [exact Hrow|]. apply Hiff. repeat split.
Defined.

Lemma audit_logft_is_table_logft_witness :
  exists row' a,
    nth_error (st_beta (run_loop sort_keeping_ties false [ex_cand_80] []
                          [ex_row_20_45; ex_row_19_44])) 1 = Some row' /\
    nth_error (audit_rows (run_loop sort_keeping_ties false [ex_cand_80] []
                             [ex_row_20_45; ex_row_19_44])) 1 = Some a /\
    a_logft a = p_logft row'.
Proof.
  pose proof (@audit_logft_is_table_logft sort_keeping_ties false [ex_cand_80] []
                [ex_row_20_45; ex_row_19_44]) as H.
  cbv zeta in H.
  destruct (H 1%nat ex_row_19_44 eq_refl) as (row' & a & Hr & Ha & Heq & _).
  exists row', a. split; [exact Hr|]. split; [exact Ha|].
  apply Heq. reflexivity.
Defined.

Lemma forced_run_is_final_witness :
  beta_written (main sort_keeping_ties (rerun ex_args_forced ex_table_written false))
  = Some ex_table_written.
Proof.
  apply (@forced_run_is_final sort_keeping_ties ex_args_forced ex_table_written
           false).
  - reflexivity.
  - vm_compute. reflexivity.
Defined.

Lemma require_complete_fails_iff_unmatched_row_witness :
  outcome (main sort_keeping_ties (ex_args true)) = Return 3.
Proof.
  pose (cands := match load_candidates (_read_csvs (logft_dir (ex_args true))) with
                 | inr c => c
                 | inl _ => []
                 end).
  assert (Ec : load_candidates (_read_csvs (logft_dir (ex_args true))) = inr cands)
    by (vm_compute; reflexivity).
  destruct (@require_complete_fails_iff_unmatched_row sort_keeping_ties
              (fun l => proj1 (sort_keeping_ties_sorts l))
              (ex_args true) ex_beta cands [])
    as [[_ H] _].
  - reflexivity.
  - reflexivity.
  - discriminate.
  - reflexivity.
  - exact Ec.
  - reflexivity.
  - reflexivity.
  - apply H. exists ex_row_20_45.
    split; [left; reflexivity|]. split; [reflexivity|].
    split; [reflexivity | vm_compute; reflexivity].
Defined.

Lemma resolved_value_is_written_witness :
  nth_error (st_beta (run_loop sort_keeping_ties true [ex_cand_80] []
                        [ex_row_20_45; ex_row_kept])) 1
  = Some (with_logft (Some 5.3%Q) ex_row_kept).
Proof.
  apply (@resolved_value_is_written sort_keeping_ties true [ex_cand_80] []
           [ex_row_20_45; ex_row_kept] 1%nat ex_row_kept 5.3%Q).
  - reflexivity.
  - left. reflexivity.
  - reflexivity.
Defined.

Lemma colliding_headers_abort_witness :
  _normalize_candidates ex_frame_colliding = inl PandasError.
Proof.
  destruct (@colliding_headers_abort ex_frame_colliding "Z" "z" "Z")
    as [H | (c & Hin & Hno & _)].
  - reflexivity.
  - left. reflexivity.
  - right. right. right. left. reflexivity.
  - discriminate.
  - reflexivity.
  - reflexivity.
  - left. reflexivity.
  - exact H.
  - exfalso. destruct Hin as [<-|[<-|[<-|[]]]]; vm_compute in Hno; discriminate.
Defined.

Lemma loading_fails_on_schema_or_in_pandas_witness :
  (exists c, In c ["Z"; "A"; "logft"] /\ RuntimeError "logft" = RuntimeError c) \/
  RuntimeError "logft" = PandasError.
Proof.
  apply (@loading_fails_on_schema_or_in_pandas [ex_source_b]
           "data/aux/logft_overrides.csv" None (RuntimeError "logft")).
  left. vm_compute. reflexivity.
Defined.
